(** * docsmith: style tidying and the request workspace

    A shallow embedding of two plugins of the document conversion service:

    - [tidy-css] ([tidyCss]): gathers the [<style>] elements of an HTML
      document into one, overrides and quotes font families, adds
      [page-break-inside: avoid] to [div] rules and minifies the result;
    - [rtf-to-html] together with its route: the content-type parser that
      sniffs the RTF signature, the [preHandler] hook that stages the body in
      the temporary directory and the [onSend] hook that removes the staged
      files.

    Third-party packages are modelled at their boundary.  [cssesc], the
    string methods of JavaScript, the declaration object of CSSOM and the
    HTML serialiser are written out; the CSS parser, the minifier and the
    HTML fragment parser are fields of the class [Libraries]; the file-type
    sniffer and the converter are section variables.

    A JavaScript string is a [string]: one [ascii] per code unit, so the
    model covers code units 0 to 255. *)

From Stdlib Require Import String Ascii List Lia Bool.
From stdpp Require Import gmap strings list.

Open Scope string_scope.
Open Scope nat_scope.

(** ** JavaScript strings *)

Module Js.

Definition code (c : ascii) : nat := nat_of_ascii c.

(** The class [\s] of regular expressions, which is also what
    [String.prototype.trim] removes: TAB, LF, VT, FF, CR, space and the
    no-break space. *)
Definition isSpace (c : ascii) : bool :=
  let n := code c in
  ((9 <=? n) && (n <=? 13)) || (n =? 32) || (n =? 160).

(** [\r] or [\n]. *)
Definition isNewline (c : ascii) : bool :=
  let n := code c in (n =? 10) || (n =? 13).

Definition isEmpty (s : string) : bool :=
  match s with EmptyString => true | _ => false end.

(** A non-empty string is the only truthy string. *)
Definition truthy (s : string) : bool := negb (isEmpty s).

Fixpoint trimStart (s : string) : string :=
  match s with
  | EmptyString => EmptyString
  | String c s' => if isSpace c then trimStart s' else s
  end.

Fixpoint trimEnd (s : string) : string :=
  match s with
  | EmptyString => EmptyString
  | String c s' =>
      let t := trimEnd s' in
      if isSpace c && isEmpty t then EmptyString else String c t
  end.

(** [s.trim()] *)
Definition trim (s : string) : string := trimEnd (trimStart s).

(** [s.split(sep)] for a one-character separator; never the empty list. *)
Fixpoint split (sep : ascii) (s : string) : list string :=
  match s with
  | EmptyString => [EmptyString]
  | String c s' =>
      if Ascii.eqb c sep then EmptyString :: split sep s'
      else match split sep s' with
           | x :: xs => String c x :: xs
           | [] => [String c EmptyString]
           end
  end.

(** [l.join(sep)] *)
Fixpoint join (sep : string) (l : list string) : string :=
  match l with
  | [] => EmptyString
  | [x] => x
  | x :: xs => x +:+ sep +:+ join sep xs
  end.

Fixpoint startsWith (p s : string) : bool :=
  match p, s with
  | EmptyString, _ => true
  | String a p', String b s' => Ascii.eqb a b && startsWith p' s'
  | String _ _, EmptyString => false
  end.

(** [s.includes(p)] *)
Fixpoint includes (p s : string) : bool :=
  startsWith p s ||
  match s with
  | EmptyString => false
  | String _ s' => includes p s'
  end.

(** [s.replace(/p/g, empty)] for a literal, non-empty pattern [p]: one pass
    from the left; [skip] counts the characters of a match still to drop. *)
Fixpoint removeAllFrom (p : string) (skip : nat) (s : string) : string :=
  match s with
  | EmptyString => EmptyString
  | String c s' =>
      match skip with
      | S k => removeAllFrom p k s'
      | O =>
          if startsWith p s then removeAllFrom p (String.length p - 1) s'
          else String c (removeAllFrom p 0 s')
      end
  end.

Definition removeAll (p s : string) : string := removeAllFrom p 0 s.

Fixpoint existsb (f : ascii -> bool) (s : string) : bool :=
  match s with
  | EmptyString => false
  | String c s' => f c || existsb f s'
  end.

Fixpoint forallb (f : ascii -> bool) (s : string) : bool :=
  match s with
  | EmptyString => true
  | String c s' => f c && forallb f s'
  end.

(** [s.substring(0, n)] *)
Fixpoint take (n : nat) (s : string) : string :=
  match n, s with
  | S k, String c s' => String c (take k s')
  | _, _ => EmptyString
  end.

End Js.

(** ** cssesc

    [cssEsc(string, { quotes: "double", wrap: true })] of the package
    [cssesc]: the string is not an identifier, so only the backslash and the
    double quote get a backslash, control and non-ASCII code units become
    hexadecimal escapes, and the result is wrapped in double quotes. *)

Module CssEsc.

Definition hexDigit (n : nat) : ascii :=
  if n <? 10 then ascii_of_nat (48 + n) else ascii_of_nat (55 + n).

(** [codePoint.toString(16).toUpperCase()] for a code unit below 256. *)
Definition hexUpper (n : nat) : string :=
  if n <? 16 then String (hexDigit n) EmptyString
  else String (hexDigit (n / 16)) (String (hexDigit (n mod 16)) EmptyString).

Definition backslash : ascii := ascii_of_nat 92.
Definition dquote : ascii := ascii_of_nat 34.
Definition space : ascii := ascii_of_nat 32.

(** The value appended for one character in the main loop. *)
Definition escapeChar (c : ascii) : string :=
  let n := Js.code c in
  if (n <? 32) || (126 <? n) then
    String backslash (hexUpper n) +:+ String space EmptyString
  else if Ascii.eqb c backslash || Ascii.eqb c dquote then
    String backslash (String c EmptyString)
  else String c EmptyString.

Fixpoint escapeChars (s : string) : string :=
  match s with
  | EmptyString => EmptyString
  | String c s' => escapeChar c +:+ escapeChars s'
  end.

(** [[A-F0-9]] *)
Definition isHexUpper (c : ascii) : bool :=
  let n := Js.code c in
  ((48 <=? n) && (n <=? 57)) || ((65 <=? n) && (n <=? 70)).

(** [[a-fA-F0-9\x20]] *)
Definition isHexOrSpace (c : ascii) : bool :=
  let n := Js.code c in
  isHexUpper c || ((97 <=? n) && (n <=? 102)) || (n =? 32).

(** The last replacement of cssesc,
    [/(^|\\+)?(\\[A-F0-9]{1,6})\x20(?![a-fA-F0-9\x20])/g]: the space that
    ends a hexadecimal escape is dropped when the escape is preceded by an
    even number of backslashes and followed by neither a hexadecimal digit
    nor a space.

    [slashes] is the number of backslashes read just before the current
    position; [hex] is [Some k] while inside the digits of a candidate
    escape, [k] digits read so far, and [pre] the backslashes before its
    own backslash. *)
Fixpoint dropSpaces (slashes : nat) (hex : option (nat * nat)) (s : string)
  : string :=
  match s with
  | EmptyString => EmptyString
  | String c s' =>
      if Ascii.eqb c backslash then String c (dropSpaces (S slashes) None s')
      else if isHexUpper c then
        match hex, slashes with
        | Some (pre, k), _ => String c (dropSpaces 0 (Some (pre, S k)) s')
        | None, S pre => String c (dropSpaces 0 (Some (pre, 1)) s')
        | None, O => String c (dropSpaces 0 None s')
        end
      else if Ascii.eqb c space then
        match hex with
        | Some (pre, k) =>
            let follows :=
              match s' with
              | EmptyString => false
              | String d _ => isHexOrSpace d
              end in
            if (k <=? 6) && Nat.even pre && negb follows
            then dropSpaces 0 None s'
            else String c (dropSpaces 0 None s')
        | None => String c (dropSpaces 0 None s')
        end
      else String c (dropSpaces 0 None s')
  end.

Definition cssEsc (s : string) : string :=
  String dquote (dropSpaces 0 None (escapeChars s))
    +:+ String dquote EmptyString.

End CssEsc.

(** A double quote, for writing quoted CSS values. *)
Definition dq : string := String CssEsc.dquote EmptyString.

(** A backslash, for writing escaped CSS values. *)
Definition bs : string := String CssEsc.backslash EmptyString.

(** A line feed. *)
Definition nl : string := String (ascii_of_nat 10) EmptyString.

(** ** Results of fallible code *)

Inductive Error : Type :=
| TypeError        (** a property read on [undefined] or [null] *)
| CssParseError    (** thrown by [CSSOM.parse] *).

Inductive Result (A : Type) : Type :=
| Ok (a : A)
| Err (e : Error).
Arguments Ok {A} a.
Arguments Err {A} e.

Definition bindR {A B} (r : Result A) (f : A -> Result B) : Result B :=
  match r with
  | Ok a => f a
  | Err e => Err e
  end.

Fixpoint mapR {A B} (f : A -> Result B) (l : list A) : Result (list B) :=
  match l with
  | [] => Ok []
  | x :: xs => bindR (f x) (fun y => bindR (mapR f xs) (fun ys => Ok (y :: ys)))
  end.

(** ** CSSOM: declarations, rules, style sheets *)

Module Cssom.

(** [CSSStyleDeclaration]: the indexed property names, the named values
    and the priorities.  Names that collide with the object's own members
    ([length], [cssText], ...) are outside the model. *)
Record CSSStyleDeclaration : Type := mkStyle {
  names : list string;
  values : gmap string string;
  importants : gmap string string
}.

Definition emptyStyle : CSSStyleDeclaration := mkStyle [] ∅ ∅.

(** [style[name]]: [None] is [undefined]. *)
Definition get (st : CSSStyleDeclaration) (name : string) : option string :=
  values st !! name.

(** The truthiness of [style[name]]. *)
Definition declares (st : CSSStyleDeclaration) (name : string) : bool :=
  match get st name with
  | Some v => Js.truthy v
  | None => false
  end.

Definition inNames (name : string) (l : list string) : bool :=
  bool_decide (name ∈ l).

(** [style.setProperty(name, value, priority)]: a name whose value is
    truthy is overwritten where it stands (and indexed if it was not); any
    other name is appended to the index.  [None] is a priority left out,
    which is stored as [undefined]. *)
Definition setPropertyWith (name value : string) (priority : option string)
    (st : CSSStyleDeclaration) : CSSStyleDeclaration :=
  let names' :=
    if declares st name
    then (if inNames name (names st) then names st
          else (names st ++ [name])%list)
    else (names st ++ [name])%list in
  mkStyle names' (<[name := value]> (values st))
    match priority with
    | Some p => <[name := p]> (importants st)
    | None => delete name (importants st)
    end.

(** [style.setProperty(name, value)] *)
Definition setProperty (name value : string) (st : CSSStyleDeclaration)
  : CSSStyleDeclaration :=
  setPropertyWith name value None st.

(** [style.getPropertyValue(name)] and [style.getPropertyPriority(name)]:
    the empty string when unset. *)
Definition getPropertyValue (st : CSSStyleDeclaration) (name : string) : string :=
  default EmptyString (values st !! name).

Definition getPropertyPriority (st : CSSStyleDeclaration) (name : string) : string :=
  default EmptyString (importants st !! name).

Definition declText (st : CSSStyleDeclaration) (name : string) : string :=
  let priority := getPropertyPriority st name in
  name +:+ ": " +:+ getPropertyValue st name
    +:+ (if Js.truthy priority then " !" +:+ priority else EmptyString) +:+ ";".

(** The getter [style.cssText]. *)
Definition cssText (st : CSSStyleDeclaration) : string :=
  Js.join " " (map (declText st) (names st)).

(** The rules [CSSOM.parse] produces, as far as [tidyCss] can tell them
    apart: a style rule has [selectorText] and [style]; [@font-face] has
    [style] but no [selectorText]; [@media], [@import], [@supports],
    [@keyframes] and the like have no [style]. *)
Inductive CSSRule : Type :=
| CSSStyleRule (selectorText : string) (style : CSSStyleDeclaration)
| CSSFontFaceRule (style : CSSStyleDeclaration)
| CSSGroupingRule (text : string).

Definition ruleText (r : CSSRule) : string :=
  match r with
  | CSSStyleRule sel st =>
      if Js.truthy sel then sel +:+ " {" +:+ cssText st +:+ "}" else EmptyString
  | CSSFontFaceRule st => "@font-face {" +:+ cssText st +:+ "}"
  | CSSGroupingRule text => text
  end.

(** [styleSheet.toString()]: every rule's text followed by a line feed. *)
Fixpoint toString (rules : list CSSRule) : string :=
  match rules with
  | [] => EmptyString
  | r :: rs => ruleText r +:+ String (ascii_of_nat 10) EmptyString +:+ toString rs
  end.

End Cssom.

(** ** The document tree of JSDOM *)

Module Dom.

Definition Attrs : Type := list (string * string).

#[warnings="-register-all"]
Inductive Node : Type :=
| Text (data : string)
| Comment (data : string)
| Element (tagName : string) (attrs : Attrs) (children : list Node).

(** A parsed document: the doctype name, if any, and the [html] element.
    Comments outside the [html] element are outside the model. *)
Record Document : Type := mkDocument {
  doctype : option string;
  htmlAttrs : Attrs;
  htmlChildren : list Node
}.

Definition memb (t : string) (l : list string) : bool :=
  List.existsb (String.eqb t) l.

Definition isVoid (tag : string) : bool :=
  memb tag ["area"; "base"; "basefont"; "bgsound"; "br"; "col"; "embed";
            "frame"; "hr"; "img"; "input"; "keygen"; "link"; "meta";
            "param"; "source"; "track"; "wbr"].

(** Elements whose text children are written without escaping. *)
Definition isRawText (tag : string) : bool :=
  memb tag ["style"; "script"; "xmp"; "iframe"; "noembed"; "noframes";
            "plaintext"].

Definition amp : ascii := ascii_of_nat 38.
Definition lt : ascii := ascii_of_nat 60.
Definition gt : ascii := ascii_of_nat 62.
Definition nbsp : ascii := ascii_of_nat 160.

Fixpoint escapeText (s : string) : string :=
  match s with
  | EmptyString => EmptyString
  | String c s' =>
      (if Ascii.eqb c amp then "&amp;"
       else if Ascii.eqb c nbsp then "&nbsp;"
       else if Ascii.eqb c lt then "&lt;"
       else if Ascii.eqb c gt then "&gt;"
       else String c EmptyString) +:+ escapeText s'
  end.

Fixpoint escapeAttr (s : string) : string :=
  match s with
  | EmptyString => EmptyString
  | String c s' =>
      (if Ascii.eqb c amp then "&amp;"
       else if Ascii.eqb c nbsp then "&nbsp;"
       else if Ascii.eqb c CssEsc.dquote then "&quot;"
       else String c EmptyString) +:+ escapeAttr s'
  end.

Definition serializeAttrs (attrs : Attrs) : string :=
  String.concat EmptyString
    (map (fun '(k, v) => " " +:+ k +:+ "=" +:+ dq +:+ escapeAttr v +:+ dq) attrs).

(** The HTML fragment serialisation of one node below an element named
    [parent]. *)
Fixpoint serializeNode (parent : string) (n : Node) : string :=
  match n with
  | Text d => if isRawText parent then d else escapeText d
  | Comment d => "<!--" +:+ d +:+ "-->"
  | Element tag attrs ch =>
      "<" +:+ tag +:+ serializeAttrs attrs +:+ ">" +:+
      (if isVoid tag then EmptyString
       else String.concat EmptyString (map (serializeNode tag) ch)
              +:+ "</" +:+ tag +:+ ">")
  end.

(** The getter [element.innerHTML], for an element named [tag] with the
    children [ch]. *)
Definition innerHTML (tag : string) (ch : list Node) : string :=
  String.concat EmptyString (map (serializeNode tag) ch).

Definition innerHTMLOf (n : Node) : string :=
  match n with
  | Element tag _ ch => innerHTML tag ch
  | _ => EmptyString
  end.

(** [dom.serialize()] *)
Definition serialize (d : Document) : string :=
  match doctype d with
  | Some name => "<!DOCTYPE " +:+ name +:+ ">"
  | None => EmptyString
  end +:+ serializeNode EmptyString (Element "html" (htmlAttrs d) (htmlChildren d)).

(** [querySelectorAll("style")] below a node, in document order. *)
Fixpoint styleElements (n : Node) : list Node :=
  match n with
  | Element tag _ ch =>
      ((if String.eqb tag "style" then [n] else []) ++ flat_map styleElements ch)%list
  | _ => []
  end.

Definition querySelectorAllStyle (d : Document) : list Node :=
  flat_map styleElements (htmlChildren d).

(** What is left of a node once every style element has been removed
    from the tree. *)
Fixpoint removeStyles (n : Node) : list Node :=
  match n with
  | Element tag attrs ch =>
      if String.eqb tag "style" then []
      else [Element tag attrs (flat_map removeStyles ch)]
  | _ => [n]
  end.

(** [document.head] is the first [head] child of the [html] element;
    [withHead f] rewrites its children, and fails when there is none
    ([document.head] is [null]). *)
Fixpoint withHead (f : list Node -> list Node) (l : list Node)
  : Result (list Node) :=
  match l with
  | [] => Err TypeError
  | n :: rest =>
      match n with
      | Element tag attrs ch =>
          if String.eqb tag "head" then Ok (Element tag attrs (f ch) :: rest)
          else bindR (withHead f rest) (fun rest' => Ok (n :: rest'))
      | _ => bindR (withHead f rest) (fun rest' => Ok (n :: rest'))
      end
  end.

(** The children of [document.head], if there is one. *)
Fixpoint headOf (l : list Node) : option (list Node) :=
  match l with
  | [] => None
  | n :: rest =>
      match n with
      | Element tag _ ch => if String.eqb tag "head" then Some ch else headOf rest
      | _ => headOf rest
      end
  end.

Definition CR : ascii := ascii_of_nat 13.
Definition LF : ascii := ascii_of_nat 10.

(** The input stream preprocessing of the HTML parser: CR LF and a lone
    CR become LF. *)
Fixpoint normalizeNewlines (s : string) : string :=
  match s with
  | EmptyString => EmptyString
  | String c s' =>
      if Ascii.eqb c CR then
        String LF
          match s' with
          | String d s'' =>
              if Ascii.eqb d LF then normalizeNewlines s'' else normalizeNewlines s'
          | EmptyString => EmptyString
          end
      else String c (normalizeNewlines s')
  end.

(** The setter [style.innerHTML = s] on a style element: in the fragment
    case no end tag is appropriate, so the whole string is one text node
    (none for the empty string).  NUL code units, which the tokenizer
    replaces, are outside the model. *)
Definition setStyleInnerHTML (s : string) : list Node :=
  let t := normalizeNewlines s in
  if Js.isEmpty t then [] else [Text t].

Definition styleElement (content : list Node) : Node :=
  Element "style" [] content.

End Dom.

(** ** The packages behind [tidyCss]

    What the plugin asks of JSDOM, CSSOM and clean-css beyond the parts
    written out above. *)

Class Libraries : Type := {
  (** [new JSDOM(html)]: the document the HTML parser builds. *)
  JSDOM_parse : string -> Dom.Document;
  (** The setter [head.innerHTML = s]: the children the fragment parser
      builds in the context of the [head] element. *)
  parseHeadFragment : string -> list Dom.Node;
  (** [CSSOM.parse(text).cssRules], or the error it throws. *)
  CSSOM_parse : string -> Result (list Cssom.CSSRule);
  (** [cssCleaner.minify(text).styles], for
      [new CleanCSS({ compatibility: "ie7" })]. *)
  cssCleaner_minify : string -> string
}.

(** ** The plugin [tidy-css] *)

Module TidyCss.
Import Cssom Dom.

Record Options : Type := mkOptions {
  backgroundColor : option string;
  fonts : option string
}.

Definition noOptions : Options := mkOptions None None.

(** [if (options.x) { y = String(options.x); }], for an option that is a
    string when present: the empty string leaves [y] undefined. *)
Definition whenTruthy (o : option string) : option string :=
  match o with
  | Some s => if Js.truthy s then Some s else None
  | None => None
  end.

Definition isSome {A} (o : option A) : bool :=
  match o with Some _ => true | None => false end.

(** [[a-zA-Z-]] *)
Definition isAlphaHyphen (c : ascii) : bool :=
  let n := Js.code c in
  ((97 <=? n) && (n <=? 122)) || ((65 <=? n) && (n <=? 90)) || (n =? 45).

(** [/[^a-zA-Z-]+/.test(s)] *)
Definition hasNonAlpha (s : string) : bool :=
  Js.existsb (fun c => negb (isAlphaHyphen c)) s.

Definition styleClose : string := "</style>".

(** The callback of [fonts.map]. *)
Definition parsedFont (font : string) : string :=
  if hasNonAlpha (Js.trim font)
  then CssEsc.cssEsc (Js.trim (Js.removeAll styleClose font))
  else Js.trim font.

Definition comma : ascii := ascii_of_nat 44.

(** [value.split(",").map(...).join(", ")] *)
Definition parsedFonts (value : string) : string :=
  Js.join ", " (map parsedFont (Js.split comma value)).

Definition fontFamily : string := "font-family".

(** Replace default font. *)
Definition replaceFont (newFonts : option string) (stylesLength : nat)
    (st : CSSStyleDeclaration) : CSSStyleDeclaration :=
  match newFonts with
  | Some f =>
      if declares st fontFamily || (stylesLength =? 1)
      then setProperty fontFamily f st
      else st
  | None => st
  end.

(** Quote the font family names that need it. *)
Definition quoteFonts (st : CSSStyleDeclaration) : CSSStyleDeclaration :=
  if declares st fontFamily
  then setProperty fontFamily (parsedFonts (getPropertyValue st fontFamily)) st
  else st.

(** Keep [div] boxes on one page and replace their default colour. *)
Definition avoidPageBreak (newBackgroundColor : option string)
    (selectorText : string) (st : CSSStyleDeclaration) : CSSStyleDeclaration :=
  if String.eqb (Js.take 3 selectorText) "div" then
    let st' := setProperty "page-break-inside" "avoid" st in
    match newBackgroundColor with
    | Some c => setProperty "background-color" c st'
    | None => st'
    end
  else st.

(** The body of [styleObj.cssRules.forEach].  A rule without [style], or
    without [selectorText], makes a property read fail. *)
Definition tidyRule (newFonts newBackgroundColor : option string)
    (stylesLength : nat) (styleRule : CSSRule) : Result CSSRule :=
  match styleRule with
  | CSSStyleRule selectorText st =>
      Ok (CSSStyleRule selectorText
            (avoidPageBreak newBackgroundColor selectorText
               (quoteFonts (replaceFont newFonts stylesLength st))))
  | CSSFontFaceRule _ => Err TypeError
  | CSSGroupingRule _ => Err TypeError
  end.

Definition tidyRules (newFonts newBackgroundColor : option string)
    (stylesLength : nat) (rules : list CSSRule) : Result (list CSSRule) :=
  mapR (tidyRule newFonts newBackgroundColor stylesLength) rules.

(** [s.replace(/^\s*[\r\n]/gm, empty)]: at the start of each line, the
    longest run of white space that ends in a line break is removed.
    [atLineStart] tells whether a match may begin here, [pending] holds
    the white space read since the last line break removed. *)
Fixpoint collapseFrom (atLineStart : bool) (pending : string) (s : string)
  : string :=
  match s with
  | EmptyString => pending
  | String c s' =>
      if atLineStart then
        if Js.isNewline c then collapseFrom true EmptyString s'
        else if Js.isSpace c
             then collapseFrom true (pending +:+ String c EmptyString) s'
             else pending +:+ String c (collapseFrom false EmptyString s')
      else String c (collapseFrom (Js.isNewline c) EmptyString s')
  end.

Definition collapseBlankLines (s : string) : string :=
  collapseFrom true EmptyString s.

(** [combinedStyle.innerHTML += element.innerHTML], for each style
    element in turn; the result is the text of [combinedStyle]. *)
Definition combine (styles : list Node) : string :=
  fold_left
    (fun acc element =>
       innerHTML "style" (setStyleInnerHTML (acc +:+ innerHTMLOf element)))
    styles EmptyString.

Section WithLibraries.
Context `{Libraries}.

(** The function on the parsed document, up to the document that is
    serialised at the end. *)
Definition tidyCssDom (dom : Document) (options : Options) : Result Document :=
  let styles := querySelectorAllStyle dom in
  let newBackgroundColor := whenTruthy (backgroundColor options) in
  let newFonts := whenTruthy (fonts options) in
  (* Create style element inside head if none already exist *)
  bindR
    (if (length styles =? 0) && (isSome newFonts || isSome newBackgroundColor)
     then withHead (fun ch => ch ++ [styleElement (setStyleInnerHTML "div {}")])%list
                   (htmlChildren dom)
     else Ok (htmlChildren dom))
    (fun children1 =>
  let styles := flat_map styleElements children1 in
  (* Combine style elements into single element *)
  let combinedStyle := combine styles in
  let children2 := flat_map removeStyles children1 in
  (* element.remove() leaves behind empty lines *)
  bindR
    (withHead (fun ch => parseHeadFragment (collapseBlankLines (innerHTML "head" ch)))
              children2)
    (fun children3 =>
  bindR (CSSOM_parse combinedStyle) (fun cssRules =>
  bindR (tidyRules newFonts newBackgroundColor (length styles) cssRules)
    (fun cssRules' =>
  let styleObj := Cssom.toString cssRules' in
  let combinedStyle' := styleElement (setStyleInnerHTML (cssCleaner_minify styleObj)) in
  bindR (withHead (fun ch => ch ++ [combinedStyle'])%list children3)
    (fun children4 =>
  Ok (mkDocument (doctype dom) (htmlAttrs dom) children4)))))).

Definition tidyCss (html : string) (options : Options) : Result string :=
  bindR (tidyCssDom (JSDOM_parse html) options) (fun dom => Ok (serialize dom)).

End WithLibraries.

End TidyCss.

(** ** A reference instance of [Libraries]

    Small executable stand-ins, used to run the plugin on concrete
    documents: a parser for the HTML the serialiser writes, the state
    machine of [CSSOM.parse] for plain style rules (at-rules and the
    [expression()] syntax are refused), and a minifier that prints the
    parsed rules compactly and leaves their values alone (clean-css also
    rewrites some values, a colour name into a shorter hexadecimal form
    for one). *)

Module Reference.
Import Cssom Dom.

(** *** CSS *)

Inductive PState : Type :=
| BeforeSelector | Selector | BeforeName | Name | BeforeValue | Value
| ValueParenthesis (depth : nat).

Inductive Lex : Type :=
| Plain
| InString (quote : ascii) (afterBackslash : bool)
| CommentOpen
| InComment (afterStar : bool)
| Skip (n : nat).

Record Parser : Type := mkParser {
  state : PState;
  lex : Lex;
  buffer : string;
  selectorText : string;
  name : string;
  priority : string;
  style : CSSStyleDeclaration;
  cssRules : list CSSRule
}.

Definition initial : Parser :=
  mkParser BeforeSelector Plain EmptyString EmptyString EmptyString EmptyString
           emptyStyle [].

Definition significantWhitespace (st : PState) : bool :=
  match st with
  | Selector | Value | ValueParenthesis _ => true
  | _ => false
  end.

Definition isCssSpace (c : ascii) : bool :=
  let n := Js.code c in
  (n =? 32) || (n =? 9) || (n =? 13) || (n =? 10) || (n =? 12).

Definition push (p : Parser) (c : ascii) : string :=
  buffer p +:+ String c EmptyString.

Definition withBuffer (p : Parser) (b : string) : Parser :=
  mkParser (state p) (lex p) b (selectorText p) (name p) (priority p)
           (style p) (cssRules p).

Definition withLex (p : Parser) (l : Lex) : Parser :=
  mkParser (state p) l (buffer p) (selectorText p) (name p) (priority p)
           (style p) (cssRules p).

Definition withState (p : Parser) (s : PState) : Parser :=
  mkParser s (lex p) (buffer p) (selectorText p) (name p) (priority p)
           (style p) (cssRules p).

Definition declare (p : Parser) : CSSStyleDeclaration :=
  setPropertyWith (name p) (Js.trim (buffer p)) (Some (priority p)) (style p).

Definition closeRule (p : Parser) (st : CSSStyleDeclaration) : Parser :=
  mkParser BeforeSelector Plain EmptyString EmptyString EmptyString EmptyString
           emptyStyle (cssRules p ++ [CSSStyleRule (selectorText p) st])%list.

(** One turn of the loop of [CSSOM.parse] at character [c]; [rest] is the
    input after [c]. *)
Definition step (p : Parser) (c : ascii) (rest : string) : Result Parser :=
  match lex p with
  | Skip n => Ok (withLex p (match n with S (S k) => Skip (S k) | _ => Plain end))
  | CommentOpen => Ok (withLex p (InComment false))
  | InComment afterStar =>
      if afterStar && Ascii.eqb c "/" then Ok (withLex p Plain)
      else Ok (withLex p (InComment (Ascii.eqb c "*")))
  | InString q afterBackslash =>
      let p' := withBuffer p (push p c) in
      if Ascii.eqb c q && negb afterBackslash then
        Ok (withLex (match state p with
                     | BeforeValue => withState p' Value
                     | _ => p'
                     end) Plain)
      else Ok (withLex p' (InString q (Ascii.eqb c CssEsc.backslash)))
  | Plain =>
      if isCssSpace c then
        Ok (if significantWhitespace (state p) then withBuffer p (push p c) else p)
      else if Ascii.eqb c CssEsc.dquote || Ascii.eqb c "'" then
        Ok (withLex (withBuffer p (push p c)) (InString c false))
      else if Ascii.eqb c "/" then
        if Js.startsWith "*" rest then Ok (withLex p CommentOpen)
        else Ok (withBuffer p (push p c))
      else if Ascii.eqb c "@" then Err CssParseError
      else if Ascii.eqb c "{" then
        match state p with
        | Selector =>
            Ok (mkParser BeforeName Plain EmptyString (Js.trim (buffer p)) (name p)
                         (priority p) (style p) (cssRules p))
        | _ => Ok p
        end
      else if Ascii.eqb c ":" then
        match state p with
        | Name =>
            Ok (mkParser BeforeValue Plain EmptyString (selectorText p)
                         (Js.trim (buffer p)) (priority p) (style p) (cssRules p))
        | _ => Ok (withBuffer p (push p c))
        end
      else if Ascii.eqb c "(" then
        match state p with
        | Value =>
            if String.eqb (Js.trim (buffer p)) "expression" then Err CssParseError
            else Ok (withState (withBuffer p (push p c)) (ValueParenthesis 1))
        | ValueParenthesis d =>
            Ok (withState (withBuffer p (push p c)) (ValueParenthesis (S d)))
        | _ => Ok (withBuffer p (push p c))
        end
      else if Ascii.eqb c ")" then
        match state p with
        | ValueParenthesis d =>
            Ok (withState (withBuffer p (push p c))
                  (match d with S (S k) => ValueParenthesis (S k) | _ => Value end))
        | _ => Ok (withBuffer p (push p c))
        end
      else if Ascii.eqb c "!" then
        match state p with
        | Value =>
            if Js.startsWith "important" rest then
              Ok (mkParser Value (Skip 9) (buffer p) (selectorText p) (name p)
                           "important" (style p) (cssRules p))
            else Ok (withBuffer p (push p c))
        | _ => Ok (withBuffer p (push p c))
        end
      else if Ascii.eqb c ";" then
        match state p with
        | Value =>
            Ok (mkParser BeforeName Plain EmptyString (selectorText p) (name p)
                         EmptyString (declare p) (cssRules p))
        | _ => Ok (withBuffer p (push p c))
        end
      else if Ascii.eqb c "}" then
        match state p with
        | Value => Ok (closeRule p (declare p))
        | BeforeName | Name => Ok (closeRule p (style p))
        | BeforeSelector | Selector => Err CssParseError
        | _ => Ok p
        end
      else
        Ok (withBuffer
              (match state p with
               | BeforeSelector =>
                   mkParser Selector Plain (buffer p) EmptyString (name p) (priority p)
                            emptyStyle (cssRules p)
               | BeforeName => withState p Name
               | BeforeValue => withState p Value
               | _ => p
               end) (push p c))
  end.

Fixpoint run (p : Parser) (s : string) : Result Parser :=
  match s with
  | EmptyString => Ok p
  | String c rest => bindR (step p c rest) (fun p' => run p' rest)
  end.

Definition parseCss (text : string) : Result (list CSSRule) :=
  bindR (run initial text) (fun p =>
    match lex p with
    | InString _ _ | CommentOpen | InComment _ => Err CssParseError
    | _ => Ok (cssRules p)
    end).

(** White space after a comma is dropped outside quotes. *)
Fixpoint compactValue (quote : option ascii) (afterComma : bool) (s : string)
  : string :=
  match s with
  | EmptyString => EmptyString
  | String c s' =>
      match quote with
      | Some q =>
          String c (compactValue (if Ascii.eqb c q then None else quote) false s')
      | None =>
          if afterComma && isCssSpace c then compactValue None true s'
          else String c
                 (compactValue
                    (if Ascii.eqb c CssEsc.dquote || Ascii.eqb c "'"
                     then Some c else None)
                    (Ascii.eqb c TidyCss.comma) s')
      end
  end.

Definition minifyDecl (st : CSSStyleDeclaration) (n : string) : string :=
  n +:+ ":" +:+ compactValue None false (getPropertyValue st n)
    +:+ (if Js.truthy (getPropertyPriority st n)
         then "!" +:+ getPropertyPriority st n else EmptyString).

Definition minifyRule (r : CSSRule) : string :=
  match r with
  | CSSStyleRule sel st =>
      match names st with
      | [] => EmptyString
      | ns => sel +:+ "{" +:+ Js.join ";" (map (minifyDecl st) ns) +:+ "}"
      end
  | _ => EmptyString
  end.

Definition minify (text : string) : string :=
  match parseCss text with
  | Ok rules => String.concat EmptyString (map minifyRule rules)
  | Err _ => EmptyString
  end.

End Reference.

Module ReferenceHtml.
Import Dom.

Fixpoint drop (n : nat) (s : string) : string :=
  match n, s with
  | S k, String _ s' => drop k s'
  | _, _ => s
  end.

(** The text before the first character that satisfies [stop], and the
    input from that character on. *)
Fixpoint takeUntil (stop : ascii -> bool) (s : string) : string * string :=
  match s with
  | EmptyString => (EmptyString, EmptyString)
  | String c s' =>
      if stop c then (EmptyString, s)
      else let '(a, b) := takeUntil stop s' in (String c a, b)
  end.

(** The text before the first occurrence of [pat], and the input after
    it. *)
Fixpoint splitAt (pat : string) (s : string) : option (string * string) :=
  if Js.startsWith pat s then Some (EmptyString, drop (String.length pat) s)
  else match s with
       | EmptyString => None
       | String c s' =>
           match splitAt pat s' with
           | Some (a, b) => Some (String c a, b)
           | None => None
           end
       end.

(** Character references the serialiser writes. *)
Fixpoint unescapeFrom (skip : nat) (s : string) : string :=
  match s with
  | EmptyString => EmptyString
  | String c s' =>
      match skip with
      | S k => unescapeFrom k s'
      | O =>
          if Js.startsWith "&amp;" s then String amp (unescapeFrom 4 s')
          else if Js.startsWith "&lt;" s then String lt (unescapeFrom 3 s')
          else if Js.startsWith "&gt;" s then String gt (unescapeFrom 3 s')
          else if Js.startsWith "&nbsp;" s then String nbsp (unescapeFrom 5 s')
          else if Js.startsWith "&quot;" s
               then String CssEsc.dquote (unescapeFrom 5 s')
               else String c (unescapeFrom 0 s')
      end
  end.

Definition unescape (s : string) : string := unescapeFrom 0 s.

(** Attributes in the form [ name="value"]. *)
Fixpoint parseAttrs (fuel : nat) (s : string) : Attrs :=
  match fuel with
  | O => []
  | S fuel' =>
      let s1 := Js.trimStart s in
      if Js.isEmpty s1 then []
      else
        let '(k, r) := takeUntil (fun c => Ascii.eqb c "=") s1 in
        let '(v, r') := takeUntil (fun c => Ascii.eqb c CssEsc.dquote) (drop 2 r) in
        (k, unescape v) :: parseAttrs fuel' (drop 1 r')
  end.

(** The siblings read until the end tag of the parent (or the end of the
    input), and the input after that end tag. *)
Fixpoint parseNodes (fuel : nat) (s : string) : list Node * string :=
  match fuel with
  | O => ([], s)
  | S fuel' =>
      if Js.isEmpty s then ([], EmptyString)
      else if Js.startsWith "</" s then
        ([], drop 1 (snd (takeUntil (fun c => Ascii.eqb c gt) s)))
      else if Js.startsWith "<!--" s then
        match splitAt "-->" (drop 4 s) with
        | Some (d, rest) =>
            let '(ns, r) := parseNodes fuel' rest in (Comment d :: ns, r)
        | None => ([Comment (drop 4 s)], EmptyString)
        end
      else if Js.startsWith "<" s then
        let '(inside, rest) := takeUntil (fun c => Ascii.eqb c gt) (drop 1 s) in
        let rest := drop 1 rest in
        let '(tag, attrText) := takeUntil Js.isSpace inside in
        let attrs := parseAttrs (String.length attrText) attrText in
        if isVoid tag then
          let '(ns, r) := parseNodes fuel' rest in (Element tag attrs [] :: ns, r)
        else if isRawText tag then
          match splitAt ("</" +:+ tag +:+ ">") rest with
          | Some (d, rest') =>
              let '(ns, r) := parseNodes fuel' rest' in
              (Element tag attrs (if Js.isEmpty d then [] else [Text d]) :: ns, r)
          | None =>
              ([Element tag attrs (if Js.isEmpty rest then [] else [Text rest])],
               EmptyString)
          end
        else
          let '(ch, rest') := parseNodes fuel' rest in
          let '(ns, r) := parseNodes fuel' rest' in
          (Element tag attrs ch :: ns, r)
      else
        let '(t, rest) := takeUntil (fun c => Ascii.eqb c lt) s in
        let '(ns, r) := parseNodes fuel' rest in
        (Text (unescape t) :: ns, r)
  end.

Definition parseFragment (s : string) : list Node :=
  fst (parseNodes (S (String.length s)) s).

Definition isHeadContent (n : Node) : bool :=
  match n with
  | Element tag _ _ =>
      memb tag ["base"; "link"; "meta"; "noscript"; "script"; "style";
                "template"; "title"]
  | _ => false
  end.

Fixpoint span {A} (f : A -> bool) (l : list A) : list A * list A :=
  match l with
  | [] => ([], [])
  | x :: xs =>
      if f x then let '(a, b) := span f xs in (x :: a, b) else ([], l)
  end.

(** A document as the serialiser writes it; any other input is laid out
    under a fresh [html] element, leading metadata in [head] and the rest
    in [body]. *)
Definition parseDocument (s : string) : Document :=
  let '(dt, rest) :=
    if Js.startsWith "<!DOCTYPE " s
    then let '(n, r) := takeUntil (fun c => Ascii.eqb c gt) (drop 10 s) in
         (Some n, drop 1 r)
    else (None, s) in
  match parseFragment rest with
  | [Element "html" attrs ch] => mkDocument dt attrs ch
  | ns =>
      let '(h, b) := span isHeadContent ns in
      mkDocument dt [] [Element "head" [] h; Element "body" [] b]
  end.

End ReferenceHtml.

#[export] Instance referenceLibraries : Libraries := {|
  JSDOM_parse := ReferenceHtml.parseDocument;
  parseHeadFragment := ReferenceHtml.parseFragment;
  CSSOM_parse := Reference.parseCss;
  cssCleaner_minify := Reference.minify
|}.

(** ** The request workspace: plugin [rtf-to-html] and its route *)

Module Workspace.

(** The temporary directory and whatever else is on disk: regular files
    by path. *)
Abbreviation Files := (gmap string (list Byte.byte)).

Inductive Failure : Type :=
| HttpError (status : nat)          (** [server.httpErrors.*()] *)
| SystemError (code : string)       (** a rejected [fs] call *)
| OtherError (message : string).    (** anything else thrown *)

(** [String(err)], as far as the hooks look into it. *)
Definition messageOf (e : Failure) : string :=
  match e with
  | HttpError _ => EmptyString
  | SystemError code => code
  | OtherError message => message
  end.

Definition badRequest : Failure := HttpError 400.
Definition notAcceptable : Failure := HttpError 406.
Definition unsupportedMediaType : Failure := HttpError 415.

Inductive Outcome (A : Type) : Type :=
| Done (a : A)
| Thrown (e : Failure).
Arguments Done {A} a.
Arguments Thrown {A} e.

Record DocLocation : Type := mkDocLocation {
  directory : string;
  rtf : string;
  id : string
}.

Record ConversionResults : Type := mkConversionResults {
  body : option string;
  docLocation : option DocLocation
}.

(** The request object, as far as the hooks touch it. *)
Record Request : Type := mkRequest {
  reqBody : list Byte.byte;
  conversionResults : option ConversionResults
}.

Inductive Event : Type :=
| Wrote (path : string)
| Unlinked (path : string)
| Sent (status : nat) (payload : string).

(** What a request runs against: the disk, the request object the hooks
    mutate, and the log of what happened so far. *)
Record State : Type := mkState {
  files : Files;
  request : Request;
  log : list Event
}.

Definition M (A : Type) : Type := State -> State * Outcome A.

Definition ret {A} (a : A) : M A := fun s => (s, Done a).
Definition throw {A} (e : Failure) : M A := fun s => (s, Thrown e).
Definition bind {A B} (m : M A) (f : A -> M B) : M B :=
  fun s => match m s with
           | (s', Done a) => f a s'
           | (s', Thrown e) => (s', Thrown e)
           end.
(** [try { m } catch (e) { ... }], with the outcome handed on. *)
Definition catch {A} (m : M A) : M (Outcome A) :=
  fun s => let '(s', r) := m s in (s', Done r).

Notation "x <- m ;; k" := (bind m (fun x => k))
  (at level 100, m at next level, right associativity).
Notation "m ;; k" := (bind m (fun _ => k))
  (at level 100, right associativity).

Definition getRequest : M Request := fun s => (s, Done (request s)).
Definition setRequest (r : Request) : M unit :=
  fun s => (mkState (files s) r (log s), Done tt).
Definition emit (e : Event) : M unit :=
  fun s => (mkState (files s) (request s) (log s ++ [e]), Done tt).

(** [fs.writeFile(path, data)] *)
Definition writeFile (path : string) (data : list Byte.byte) : M unit :=
  fun s => (mkState (<[path := data]> (files s)) (request s)
                    (log s ++ [Wrote path]), Done tt).

(** [fs.unlink(path)]: rejects with [ENOENT] when the file is not there. *)
Definition unlink (path : string) : M unit :=
  fun s => match files s !! path with
           | Some _ => (mkState (delete path (files s)) (request s)
                                (log s ++ [Unlinked path]), Done tt)
           | None => (s, Thrown (SystemError "ENOENT"))
           end.

(** [Promise.all(ms)]: every operation is started and has its effect;
    the result is the first rejection, if any. *)
Fixpoint promiseAll (ms : list (M unit)) : M unit :=
  match ms with
  | [] => ret tt
  | m :: rest =>
      fun s => match m s with
               | (s', Done _) => promiseAll rest s'
               | (s', Thrown e) => (fst (promiseAll rest s'), Thrown e)
               end
  end.

Definition slash : ascii := ascii_of_nat 47.

(** A glob pattern against a path, with [*] and [?] as the wildcards;
    neither matches a slash.  Brackets, braces and the other special
    forms of [glob] are read as plain characters, so the model is for
    directories whose names hold none of them. *)
Fixpoint globMatch (pat : string) : string -> bool :=
  match pat with
  | EmptyString => fun path => Js.isEmpty path
  | String p pat' =>
      if Ascii.eqb p "*" then
        fix star (path : string) : bool :=
          globMatch pat' path ||
          match path with
          | String c path' => negb (Ascii.eqb c slash) && star path'
          | EmptyString => false
          end
      else
        fun path =>
          match path with
          | String c path' =>
              (if Ascii.eqb p "?" then negb (Ascii.eqb c slash) else Ascii.eqb p c)
              && globMatch pat' path'
          | EmptyString => false
          end
  end.

(** [glob.sync(pattern)] *)
Definition globSync (pattern : string) : M (list string) :=
  fun s => (s, Done (List.filter (globMatch pattern) (elements (dom (files s))))).

(** [path.joinSafe(a, b)], for a normalised directory [a] other than the
    root and a single segment [b]. *)
Definition joinSafe (a b : string) : string := a +:+ "/" +:+ b.

(** The first of the hooks: [req.conversionResults = { body: undefined }]. *)
Definition onRequest : M unit :=
  r <- getRequest ;;
  setRequest (mkRequest (reqBody r) (Some (mkConversionResults None None))).

(** [req?.conversionResults?.docLocation] *)
Definition docLocationOf (r : Request) : option DocLocation :=
  match conversionResults r with
  | Some cr => docLocation cr
  | None => None
  end.

(** The hook ["onSend"], with [other] standing for what the rest of the
    system does to the disk between the synchronous scan and the
    asynchronous unlinks. *)
Definition onSendAmid (other : Files -> Files) (payload : string) : M string :=
  r <- getRequest ;;
  match docLocationOf r with
  | Some loc =>
      (* Remove files from temp directory after response sent *)
      found <- globSync (joinSafe (directory loc) (id loc) +:+ "*") ;;
      (fun s => (mkState (other (files s)) (request s) (log s), Done tt)) ;;
      promiseAll (map unlink found) ;;
      ret payload
  | None => ret payload
  end.

(** The hook when nothing else touches the disk meanwhile. *)
Definition onSend (payload : string) : M string := onSendAmid (fun fs => fs) payload.

Definition rtfMime : string := "application/rtf".

#[export] Instance byte_eq_decision : EqDecision Byte.byte := Byte.byte_eq_dec.

(** Modelled from the spec: the RTF entry of the content sniffing table,
    the five bytes of [{\rtf]; the table itself is in the package
    [file-type]. *)
Definition rtfSignature : list Byte.byte :=
  [Byte.x7b; Byte.x5c; Byte.x72; Byte.x74; Byte.x66].




Section Route.
Context `{Libraries}.
(** [options.tempDir], normalised. *)
Variable tempDir : string.
(** [fromBuffer] of the package [file-type]: the sniffed MIME type. *)
Variable fromBuffer : list Byte.byte -> option string.
(** [unrtf.convert(file, options)]: reads the disk, may leave files on
    it, and gives the HTML or throws. *)
Variable unrtf_convert : Files -> string -> Files * Outcome string.
Variable fixUtf8 : string -> string.
(** The decorator of the plugin [tidy-html]. *)
Variable tidyHtml : string -> string.

(** The parser registered for ["application/rtf"]. *)
Definition contentTypeParser (payload : list Byte.byte) : M (list Byte.byte) :=
  match fromBuffer payload with
  | Some mime =>
      if String.eqb mime rtfMime then ret payload
      else throw unsupportedMediaType
  | None => throw unsupportedMediaType
  end.

(** The hook ["preHandler"]; [uuid] is what [randomUUID()] returns. *)
Definition preHandler (uuid : string) : M unit :=
  r <- getRequest ;;
  let tempFile := joinSafe tempDir (uuid +:+ ".rtf") in
  match conversionResults r with
  | None => throw (OtherError "TypeError")
  | Some cr =>
      setRequest (mkRequest (reqBody r)
        (Some (mkConversionResults (body cr)
                 (Some (mkDocLocation tempDir tempFile uuid))))) ;;
      writeFile tempFile (reqBody r) ;;
      converted <-
        (fun s => let '(fs', o) := unrtf_convert (files s) tempFile in
                  (mkState fs' (request s) (log s), Done o)) ;;
      match converted with
      | Done html =>
          r' <- getRequest ;;
          setRequest (mkRequest (reqBody r')
            (Some (mkConversionResults (Some (fixUtf8 html)) (docLocationOf r'))))
      | Thrown err =>
          (* UnRTF will throw if the .rtf file provided by client is
             malformed, thus client error code *)
          if Js.includes "File is not the correct media type" (messageOf err)
          then throw badRequest
          else throw err
      end
  end.

Record Query : Type := mkQuery {
  fonts : option string;
  backgroundColor : option string
}.

(** The route handler. *)
Definition handler (query : Query) : M string :=
  r <- getRequest ;;
  match conversionResults r with
  | Some (mkConversionResults (Some html) _) =>
      match TidyCss.tidyCss (tidyHtml html)
              (TidyCss.mkOptions (backgroundColor query) (fonts query)) with
      | Ok out => ret out
      | Err _ => throw (OtherError "TypeError")
      end
  | _ => throw (OtherError "TypeError")
  end.

(** A POST whose [Content-Type] is [application/rtf]. *)
Record Inbound : Type := mkInbound {
  payload : list Byte.byte;
  acceptsHtml : bool;
  query : Query
}.

Definition statusOf (e : Failure) : nat :=
  match e with
  | HttpError status => status
  | _ => 500
  end.

Definition errorPayload (e : Failure) : string :=
  match e with
  | HttpError 400 => "Bad Request"
  | HttpError 406 => "Not Acceptable"
  | HttpError 415 => "Unsupported Media Type"
  | _ => "Internal Server Error"
  end.

(** From the [onRequest] hook of the route, which checks the Accept
    header, through the body parser and [preHandler] to the handler. *)
Definition respond (req : Inbound) (uuid : string) : M string :=
  (if acceptsHtml req then ret tt else throw notAcceptable) ;;
  parsed <- contentTypeParser (payload req) ;;
  r <- getRequest ;;
  setRequest (mkRequest parsed (conversionResults r)) ;;
  preHandler uuid ;;
  handler (query req).

(** The life of one request under Fastify: the [onRequest] hooks, the
    body parser, [preHandler], the handler; whatever the outcome,
    the [onSend] hook runs once on the payload, and then the response
    is written. *)
Definition handleRequest (req : Inbound) (uuid : string) : M unit :=
  onRequest ;;
  outcome <- catch (respond req uuid) ;;
  let '(status, reply) :=
    match outcome with
    | Done html => (200, html)
    | Thrown e => (statusOf e, errorPayload e)
    end in
  sent <- catch (onSend reply) ;;
  match sent with
  | Done p => emit (Sent status p)
  | Thrown e => emit (Sent (statusOf e) (errorPayload e))
  end.

End Route.

End Workspace.

(** ** Stand-ins for the collaborators of the route

    Used to run the request life cycle on concrete inputs. *)

Module ReferenceRoute.
Import Workspace.


(** A sniffer that knows the RTF signature only. *)
Definition fromBuffer (buffer : list Byte.byte) : option string :=
  if bool_decide (rtfSignature `prefix_of` buffer) then Some rtfMime else None.

(** A converter that rejects an empty or missing file and otherwise gives
    a fixed page. *)
Definition unrtf_convert (fs : Files) (file : string) : Files * Outcome string :=
  match fs !! file with
  | Some (_ :: _) =>
      (fs, Done "<html><head></head><body><p>Ask not what your country can do for you</p></body></html>")
  | _ => (fs, Thrown (OtherError "File is not the correct media type"))
  end.

Definition handleRequest (req : Inbound) (uuid : string) : M unit :=
  Workspace.handleRequest "tmp" fromBuffer unrtf_convert (fun s => s) (fun s => s)
    req uuid.

(** A request whose body has been staged as [tmp/abc.rtf], with a
    picture beside it and the file of another request. *)
Definition staged : State :=
  mkState (<["tmp/abc.rtf" := []]> (<["tmp/abc-1.png" := []]> (<["tmp/abd.rtf" := []]> ∅)))
          (mkRequest []
             (Some (mkConversionResults None
                      (Some (mkDocLocation "tmp" "tmp/abc.rtf" "abc")))))
          [].

Definition emptyRequest : Request := mkRequest [] None.

Definition freshState (fs : Files) : State := mkState fs emptyRequest [].

End ReferenceRoute.

(** ** Step 5 of the Style Tidy Engine, in the words of the specification

    For each font name: a name with a character outside [[A-Za-z-]] is
    escaped and double-quoted after the style-closing sequence has been
    stripped from it; any other name is used trimmed and unescaped. *)

Module Spec.

Definition onlyLettersAndHyphens (name : string) : bool :=
  Js.forallb TidyCss.isAlphaHyphen name.

Definition escaped (name : string) : string :=
  CssEsc.dropSpaces 0 None (CssEsc.escapeChars name).

Definition fontName (name : string) : string :=
  if onlyLettersAndHyphens (Js.trim name) then Js.trim name
  else dq +:+ escaped (Js.trim (Js.removeAll TidyCss.styleClose name)) +:+ dq.

Definition fontFamilyValue (value : string) : string :=
  Js.join ", " (map fontName (Js.split TidyCss.comma value)).

(** Every white space character removed, to compare values modulo white
    space. *)
Fixpoint withoutSpaces (s : string) : string :=
  match s with
  | EmptyString => EmptyString
  | String c s' => if Js.isSpace c then withoutSpaces s' else String c (withoutSpaces s')
  end.

End Spec.

(** ** Predicates of the statements *)

Module Settled.
Import Cssom TidyCss.





(** A name that holds no comma. *)
Definition commaFree (s : string) : bool := negb (Js.existsb (Ascii.eqb comma) s).


End Settled.

(** ** Shapes of rules and declarations *)

Module Rules.
Import Cssom.

(** A rule that has both [selectorText] and [style]. *)
Definition isStyleRule (r : CSSRule) : bool :=
  match r with CSSStyleRule _ _ => true | _ => false end.

(** [rule.selectorText]: [None] is [undefined]. *)
Definition selectorOf (r : CSSRule) : option string :=
  match r with CSSStyleRule sel _ => Some sel | _ => None end.

(** The properties the rule pass writes. *)
Definition writtenNames : list string :=
  [TidyCss.fontFamily; "page-break-inside"; "background-color"].

(** What a step of the pass may do to a declaration: the properties
    outside [touched] keep value and priority, and the index grows at its
    end by names of [touched]. *)
Definition framed (touched : list string) (st st' : CSSStyleDeclaration) : Prop :=
  (forall name, name ∉ touched ->
     get st' name = get st name /\ importants st' !! name = importants st !! name) /\
  exists added, names st' = (names st ++ added)%list /\
                forall name, name ∈ added -> name ∈ touched.

(** The text of the rule made for a document without style elements,
    once the overrides are written into it. *)
Definition defaultRuleText (newFonts newBackgroundColor : option string) : string :=
  "div {"
  +:+ match newFonts with
      | Some f => "font-family: " +:+ TidyCss.parsedFonts f +:+ "; "
      | None => EmptyString
      end
  +:+ "page-break-inside: avoid;"
  +:+ match newBackgroundColor with
      | Some c => " background-color: " +:+ c +:+ ";"
      | None => EmptyString
      end
  +:+ "}" +:+ nl.

End Rules.

(** ** Blank lines *)

Module Lines.

(** White space other than a line break. *)
Definition isBlank (c : ascii) : bool := Js.isSpace c && negb (Js.isNewline c).

(** [/^\s*[\r\n]/] at the start of [s]: white space up to and including a
    line break. *)
Fixpoint blankLineFrom (s : string) : bool :=
  match s with
  | EmptyString => false
  | String c s' => Js.isNewline c || (Js.isSpace c && blankLineFrom s')
  end.

(** [/^\s*[\r\n]/m.test(s)]: some line of [s], the first one when
    [atLineStart], begins with white space that runs up to a line break. *)
Fixpoint hasBlankLine (atLineStart : bool) (s : string) : bool :=
  match s with
  | EmptyString => false
  | String c s' =>
      (atLineStart && blankLineFrom s) || hasBlankLine (Js.isNewline c) s'
  end.

End Lines.

(** ** CSS strings *)

Module CssSyntax.


(** The rest of a CSS string token opened by a double quote: a backslash
    escapes the character after it, a line break is not allowed, and the
    first double quote that is not escaped has to be the last character of
    [s]. *)
Fixpoint closesAtEnd (escaped : bool) (s : string) : bool :=
  match s with
  | EmptyString => false
  | String c s' =>
      if escaped then closesAtEnd false s'
      else if Ascii.eqb c CssEsc.backslash then closesAtEnd true s'
      else if Ascii.eqb c CssEsc.dquote then Js.isEmpty s'
      else if Js.isNewline c then false
      else closesAtEnd false s'
  end.

(** One double-quoted CSS string token, and nothing after it. *)
Definition isCssString (s : string) : bool :=
  match s with
  | String c s' => Ascii.eqb c CssEsc.dquote && closesAtEnd false s'
  | EmptyString => false
  end.

(** A character of the style-closing sequence. *)
Definition inClose (c : ascii) : bool := Js.existsb (Ascii.eqb c) TidyCss.styleClose.

End CssSyntax.

(** ** Paths of the workspace *)

Module Paths.
Import Workspace.



End Paths.

(** ** The answer of the route *)

Module Answers.
Import Workspace.

Section WithCollaborators.
Context `{Libraries}.
Variable fixUtf8 : string -> string.
Variable tidyHtml : string -> string.

(** What [preHandler] and the handler make of the converter's outcome:
    the page tidied, or the error to answer with. *)
Definition answerOf (query : Query) (converted : Outcome string) : Outcome string :=
  match converted with
  | Done html =>
      match TidyCss.tidyCss (tidyHtml (fixUtf8 html))
              (TidyCss.mkOptions (backgroundColor query) (fonts query)) with
      | Ok out => Done out
      | Err _ => Thrown (OtherError "TypeError")
      end
  | Thrown err =>
      if Js.includes "File is not the correct media type" (messageOf err)
      then Thrown badRequest else Thrown err
  end.

End WithCollaborators.

End Answers.

(** ** More stand-ins and sample documents *)

(** The reference instance with a parser that knows at-rules a little: a
    style sheet that begins with [@] is read as one grouping rule. *)
Definition atRuleLibraries : Libraries := {|
  JSDOM_parse := ReferenceHtml.parseDocument;
  parseHeadFragment := ReferenceHtml.parseFragment;
  CSSOM_parse := fun text =>
    if Js.startsWith "@" text then Ok [Cssom.CSSGroupingRule text]
    else Reference.parseCss text;
  cssCleaner_minify := Reference.minify
|}.

Module Samples.
Import Dom.

(** A document with a style element in its head, one in its body and one
    inside a paragraph. *)
Definition threeBlocks : string :=
  "<!DOCTYPE html><html lang=" +:+ dq +:+ "en" +:+ dq
  +:+ "><head><style>p{color:red}</style><title>t</title></head><body><style>b{color:blue}</style><p>x<style>i{color:green}</style></p></body></html>".

Definition threeBlocksTidied : Document :=
  mkDocument (Some "html") [("lang", "en")]
    [Element "head" []
       [Element "title" [] [Text "t"];
        styleElement [Text "p{color:red}b{color:blue}i{color:green}"]];
     Element "body" [] [Element "p" [] [Text "x"]]].

End Samples.

(** * Properties *)

(** ** Strings *)

#[local] Arguments String.append !s1 s2 / : simpl nomatch.

Section StringFacts.

Lemma append_assoc (a b c : string) : (a +:+ b) +:+ c = a +:+ (b +:+ c).
Proof. induction a as [|x a IH]; simpl; [done | by rewrite IH]. Qed.

Lemma existsb_append (f : ascii -> bool) (a b : string) :
  Js.existsb f (a +:+ b) = Js.existsb f a || Js.existsb f b.
Proof.
  induction a as [|c a IH]; simpl; [done|].
  rewrite IH. by destruct (f c).
Qed.

Lemma hasNonAlpha_forallb (s : string) :
  TidyCss.hasNonAlpha s = negb (Js.forallb TidyCss.isAlphaHyphen s).
Proof.
  unfold TidyCss.hasNonAlpha.
  induction s as [|c s IH]; simpl; [done|].
  rewrite IH. by destruct (TidyCss.isAlphaHyphen c).
Qed.

(** Trimming keeps every character that is not white space. *)
Lemma existsb_trimStart (f : ascii -> bool) (s : string) :
  (forall c, f c = true -> Js.isSpace c = false) ->
  Js.existsb f (Js.trimStart s) = Js.existsb f s.
Proof.
  intros Hf. induction s as [|c s IH]; simpl; [done|].
  destruct (Js.isSpace c) eqn:Hc; simpl; [|done].
  rewrite IH. destruct (f c) eqn:Hfc; [|done].
  apply Hf in Hfc. congruence.
Qed.

Lemma isEmpty_trimEnd_existsb (f : ascii -> bool) (s : string) :
  (forall c, f c = true -> Js.isSpace c = false) ->
  Js.isEmpty (Js.trimEnd s) = true -> Js.existsb f s = false.
Proof.
  intros Hf. induction s as [|c s IH]; simpl; [done|].
  destruct (Js.isSpace c) eqn:Hc; simpl.
  - destruct (Js.isEmpty (Js.trimEnd s)) eqn:He; simpl; [|done].
    intros _. rewrite IH; [|done].
    destruct (f c) eqn:Hfc; [|done]. apply Hf in Hfc. congruence.
  - done.
Qed.

Lemma existsb_trimEnd (f : ascii -> bool) (s : string) :
  (forall c, f c = true -> Js.isSpace c = false) ->
  Js.existsb f (Js.trimEnd s) = Js.existsb f s.
Proof.
  intros Hf. induction s as [|c s IH]; simpl; [done|].
  destruct (Js.isSpace c && Js.isEmpty (Js.trimEnd s)) eqn:Hc; simpl.
  - apply andb_true_iff in Hc as [Hc He].
    rewrite (isEmpty_trimEnd_existsb f s Hf He).
    destruct (f c) eqn:Hfc; [|done]. apply Hf in Hfc. congruence.
  - by rewrite IH.
Qed.

Lemma existsb_trim (f : ascii -> bool) (s : string) :
  (forall c, f c = true -> Js.isSpace c = false) ->
  Js.existsb f (Js.trim s) = Js.existsb f s.
Proof.
  intros Hf. unfold Js.trim.
  by rewrite existsb_trimEnd, existsb_trimStart.
Qed.

Lemma existsb_weaken (f g : ascii -> bool) (s : string) :
  (forall c, f c = true -> g c = true) ->
  Js.existsb f s = true -> Js.existsb g s = true.
Proof.
  intros Hfg. induction s as [|c s IH]; simpl; [done|].
  intros [Hc|Hs]%orb_true_iff; apply orb_true_iff; [left|right]; auto.
Qed.

(** A name that holds a double quote is one that gets quoted. *)
Lemma hasNonAlpha_trim_dquote (s : string) :
  Js.existsb (Ascii.eqb CssEsc.dquote) s = true ->
  TidyCss.hasNonAlpha (Js.trim s) = true.
Proof.
  intros Hs. unfold TidyCss.hasNonAlpha.
  apply existsb_weaken with (f := Ascii.eqb CssEsc.dquote).
  - intros c Hc%Ascii.eqb_eq. by subst c.
  - rewrite existsb_trim; [done|].
    intros c Hc%Ascii.eqb_eq. by subst c.
Qed.

(** Splitting at a separator that the first part does not hold. *)
Lemma split_free (sep : ascii) (a : string) :
  Js.existsb (Ascii.eqb sep) a = false -> Js.split sep a = [a].
Proof.
  induction a as [|c a IH]; simpl; [done|].
  intros [Hc Ha]%orb_false_iff.
  rewrite Ascii.eqb_sym in Hc. rewrite Hc, IH; done.
Qed.

Lemma split_free_sep (sep : ascii) (a s : string) :
  Js.existsb (Ascii.eqb sep) a = false ->
  Js.split sep (a +:+ String sep s) = a :: Js.split sep s.
Proof.
  induction a as [|c a IH]; simpl.
  - intros _. by rewrite Ascii.eqb_refl.
  - intros [Hc Ha]%orb_false_iff.
    rewrite Ascii.eqb_sym in Hc. rewrite Hc, IH; done.
Qed.

End StringFacts.

(** ** Declarations *)

Section DeclarationFacts.
Import Cssom.

Lemma get_setProperty (name value : string) (st : CSSStyleDeclaration) :
  get (setProperty name value st) name = Some value.
Proof. unfold get, setProperty, setPropertyWith; simpl. apply lookup_insert_eq. Qed.

Lemma get_setProperty_ne (name other value : string) (st : CSSStyleDeclaration) :
  name <> other -> get (setProperty name value st) other = get st other.
Proof.
  intros Hne. unfold get, setProperty, setPropertyWith; simpl.
  by apply lookup_insert_ne.
Qed.

Lemma declares_setProperty (name value : string) (st : CSSStyleDeclaration) :
  declares (setProperty name value st) name = Js.truthy value.
Proof. unfold declares. by rewrite get_setProperty. Qed.

Lemma getPropertyValue_setProperty (name value : string) (st : CSSStyleDeclaration) :
  getPropertyValue (setProperty name value st) name = value.
Proof.
  unfold getPropertyValue, setProperty, setPropertyWith; simpl.
  by rewrite lookup_insert_eq.
Qed.

Lemma getPropertyValue_get (name value : string) (st : CSSStyleDeclaration) :
  get st name = Some value -> getPropertyValue st name = value.
Proof. unfold get, getPropertyValue. by intros ->. Qed.

End DeclarationFacts.

(** ** The rule pass *)

Section RulePass.
Import Cssom TidyCss.

Lemma get_avoidPageBreak (nb : option string) (sel : string) (st : CSSStyleDeclaration) :
  get (avoidPageBreak nb sel st) fontFamily = get st fontFamily.
Proof.
  unfold avoidPageBreak.
  destruct (String.eqb (Js.take 3 sel) "div"); [|done].
  destruct nb as [c|]; rewrite !get_setProperty_ne; done.
Qed.

(** The font family a style rule is left with: the override, quoted, when
    the override reaches the rule; the rule's own value, quoted, when it
    declares one; nothing new otherwise. *)
Lemma get_tidied_fontFamily (nf : option string) (n : nat) (st : CSSStyleDeclaration) :
  get (quoteFonts (replaceFont nf n st)) fontFamily =
    let st1 := replaceFont nf n st in
    if declares st1 fontFamily
    then Some (parsedFonts (getPropertyValue st1 fontFamily))
    else get st1 fontFamily.
Proof.
  simpl. unfold quoteFonts.
  destruct (declares (replaceFont nf n st) fontFamily); [|done].
  apply get_setProperty.
Qed.

Lemma parsedFont_spec (font : string) : parsedFont font = Spec.fontName font.
Proof.
  unfold parsedFont, Spec.fontName, Spec.onlyLettersAndHyphens, CssEsc.cssEsc.
  rewrite hasNonAlpha_forallb.
  by destruct (Js.forallb isAlphaHyphen (Js.trim font)).
Qed.

Lemma parsedFonts_spec (value : string) : parsedFonts value = Spec.fontFamilyValue value.
Proof.
  unfold parsedFonts, Spec.fontFamilyValue. f_equal.
  apply map_ext. intros font. apply parsedFont_spec.
Qed.

End RulePass.

(** ** Font families *)

Section FontFamilies.
Import Cssom TidyCss.

(** Where the font override reaches, and what the rule holds afterwards. *)
Lemma fontFamily_after_override
    (f : string) (nb : option string) (stylesLength : nat)
    (sel : string) (st : CSSStyleDeclaration) :
  Js.truthy f = true ->
  get (avoidPageBreak nb sel (quoteFonts (replaceFont (Some f) stylesLength st)))
      fontFamily =
    if declares st fontFamily || (stylesLength =? 1)
    then Some (parsedFonts f) else get st fontFamily.
Proof.
  intros Hf.
  rewrite get_avoidPageBreak, get_tidied_fontFamily. simpl.
  destruct (declares st fontFamily || (stylesLength =? 1)) eqn:Hreach.
  - by rewrite declares_setProperty, Hf, getPropertyValue_setProperty.
  - apply orb_false_iff in Hreach as [-> _]. done.
Qed.




(** C5, as amended.  A rule that declares a font family has its value
    split on commas, each name rewritten as the specification words it,
    and the names joined with a comma and a space.  A name that is already
    quoted holds characters outside [[A-Za-z-]], so it is escaped and
    quoted again. *)
Theorem C5_font_names_quoted
    (nb : option string) (stylesLength : nat)
    (sel : string) (st : CSSStyleDeclaration) (v : string) :
  get st fontFamily = Some v ->
  Js.truthy v = true ->
  (exists st',
     tidyRule None nb stylesLength (CSSStyleRule sel st) = Ok (CSSStyleRule sel st') /\
     get st' fontFamily =
       Some (Js.join ", " (map Spec.fontName (Js.split comma v)))) /\
  parsedFonts "Arial, Weird Font" = "Arial, " +:+ dq +:+ "Weird Font" +:+ dq /\
  parsedFonts ("Arial, " +:+ dq +:+ "My Weird/Font" +:+ dq) =
    "Arial, " +:+ dq +:+ bs +:+ dq +:+ "My Weird/Font" +:+ bs +:+ dq +:+ dq.
Proof.
  intros Hget Hv. split; [|split; reflexivity].
  eexists. split; [reflexivity|].
  rewrite get_avoidPageBreak, get_tidied_fontFamily. simpl.
  unfold declares. rewrite Hget, Hv.
  rewrite (getPropertyValue_get _ _ _ Hget).
  f_equal. apply parsedFonts_spec.
Qed.

Lemma C5_font_names_quoted_witness :
  exists st',
    tidyRule None None 2
      (CSSStyleRule "p" (setProperty fontFamily "Arial, Weird Font" emptyStyle))
      = Ok (CSSStyleRule "p" st') /\
    get st' fontFamily = Some ("Arial, " +:+ dq +:+ "Weird Font" +:+ dq).
Proof.
  destruct (C5_font_names_quoted None 2 "p"
              (setProperty fontFamily "Arial, Weird Font" emptyStyle)
              "Arial, Weird Font" eq_refl eq_refl)
    as ((st' & Hrule & Hget) & _ & _).
  exists st'. split; [exact Hrule | exact Hget].
Defined.

(** C5, as stated, fails on its own example: the quoted name comes out
    with its quotes escaped and a new pair around it, which is more than
    a change of white space. *)
Lemma C5_counterexample :
  let v := "Arial, " +:+ dq +:+ "My Weird/Font" +:+ dq in
  tidyRule None None 2 (CSSStyleRule "p" (setProperty fontFamily v emptyStyle)) =
    Ok (CSSStyleRule "p"
          (setProperty fontFamily
             ("Arial, " +:+ dq +:+ bs +:+ dq +:+ "My Weird/Font" +:+ bs +:+ dq +:+ dq)
             emptyStyle))
  /\ Spec.withoutSpaces (parsedFonts v) <> Spec.withoutSpaces v.
Proof. split; [vm_compute; reflexivity | vm_compute; discriminate]. Qed.

(** C3 fails on the code: the style-closing sequence is removed in one
    pass, so a name in which the sequence is nested still holds it after
    the removal, and it reaches the style element unescaped. *)
Theorem C3_style_close_survives_removal :
  (forall (nb : option string) (sel : string) (st : CSSStyleDeclaration),
     get (avoidPageBreak nb sel
            (quoteFonts (replaceFont (Some "</sty</style>le>") 1 st))) fontFamily
       = Some (dq +:+ "</style>" +:+ dq)) /\
  tidyCss "<html><head></head><body></body></html>"
          (mkOptions None (Some "</sty</style>le>"))
    = Ok ("<html><head><style>div{font-family:" +:+ dq +:+ "</style>" +:+ dq
          +:+ ";page-break-inside:avoid}</style></head><body></body></html>").
Proof.
  split.
  - intros nb sel st.
    rewrite fontFamily_after_override by reflexivity.
    rewrite orb_true_r. reflexivity.
  - vm_compute. reflexivity.
Qed.

End FontFamilies.

(** ** Commas inside quotes *)

Section CommaSplit.
Import Cssom TidyCss Settled.

Lemma join_cons (sep x y : string) (l : list string) :
  Js.join sep (x :: y :: l) = x +:+ sep +:+ Js.join sep (y :: l).
Proof. done. Qed.

(** Names without a comma, joined with commas, split back into
    themselves. *)
Lemma split_join (ns : list string) :
  ns <> [] ->
  List.forallb commaFree ns = true ->
  Js.split comma (Js.join "," ns) = ns.
Proof.
  induction ns as [|x ns IH]; [done|]. intros _.
  cbn [List.forallb]. intros [Hx Hns]%andb_true_iff.
  apply negb_true_iff in Hx.
  destruct ns as [|y ns].
  - by apply split_free.
  - rewrite join_cons.
    change (x +:+ "," +:+ Js.join "," (y :: ns))
      with (x +:+ String comma (Js.join "," (y :: ns))).
    rewrite split_free_sep by done. f_equal. by apply IH.
Qed.

(** A name that holds a comma joins as its two halves do. *)
Lemma join_flatten (l1 l2 : list string) (x y : string) :
  Js.join "," (l1 ++ [x +:+ "," +:+ y] ++ l2)%list
    = Js.join "," (l1 ++ [x; y] ++ l2)%list.
Proof.
  induction l1 as [|z l1 IH].
  - cbn [app]. destruct l2 as [|w l2]; [done|].
    rewrite !join_cons. by rewrite !append_assoc.
  - cbn [app] in *.
    destruct (l1 ++ (x +:+ "," +:+ y) :: l2)%list as [|u rest] eqn:Hu.
    { by destruct l1. }
    destruct (l1 ++ x :: y :: l2)%list as [|u' rest'] eqn:Hu'.
    { by destruct l1. }
    rewrite !join_cons. by rewrite IH.
Qed.

Lemma forallb_commaFree_app (l1 l2 : list string) :
  List.forallb commaFree (l1 ++ l2)%list
    = List.forallb commaFree l1 && List.forallb commaFree l2.
Proof. apply forallb_app. Qed.

(** C10.  The value of font-family is cut at every comma, quoted or not:
    a quoted family name with a comma inside, wherever it stands among the
    names, comes out as two names, each half escaped and wrapped in quotes
    of its own. *)
Theorem C10_comma_inside_quotes_splits
    (before after : list string) (a b : string)
    (nb : option string) (stylesLength : nat)
    (sel : string) (st : CSSStyleDeclaration) :
  List.forallb commaFree before = true ->
  List.forallb commaFree after = true ->
  commaFree a = true ->
  commaFree b = true ->
  get st fontFamily =
    Some (Js.join "," (before ++ [dq +:+ a +:+ "," +:+ b +:+ dq] ++ after)%list) ->
  exists st',
    tidyRule None nb stylesLength (CSSStyleRule sel st) = Ok (CSSStyleRule sel st') /\
    get st' fontFamily =
      Some (Js.join ", "
              (map parsedFont before
               ++ [CssEsc.cssEsc (Js.trim (Js.removeAll styleClose (dq +:+ a)));
                   CssEsc.cssEsc (Js.trim (Js.removeAll styleClose (b +:+ dq)))]
               ++ map parsedFont after)%list).
Proof.
  intros Hbefore Hafter Ha Hb Hget. eexists. split; [reflexivity|].
  apply negb_true_iff in Ha, Hb.
  set (v := Js.join "," (before ++ [dq +:+ a +:+ "," +:+ b +:+ dq] ++ after)%list) in *.
  assert (Js.split comma v = (before ++ [dq +:+ a; b +:+ dq] ++ after)%list) as Hsplit.
  { unfold v.
    change (dq +:+ a +:+ "," +:+ b +:+ dq) with ((dq +:+ a) +:+ "," +:+ (b +:+ dq)).
    rewrite join_flatten. apply split_join; [by destruct before|].
    rewrite forallb_commaFree_app, Hbefore. cbn [app List.forallb andb].
    rewrite Hafter. unfold commaFree.
    rewrite (existsb_append _ b dq), Hb.
    change (Js.existsb (Ascii.eqb comma) (dq +:+ a))
      with (Js.existsb (Ascii.eqb comma) a).
    by rewrite Ha. }
  assert (Js.truthy v = true) as Hv.
  { destruct v; [|done]. exfalso.
    apply (f_equal length) in Hsplit. rewrite length_app in Hsplit.
    cbn in Hsplit. lia. }
  rewrite get_avoidPageBreak, get_tidied_fontFamily. cbv zeta.
  unfold replaceFont, declares. rewrite Hget, Hv.
  rewrite (getPropertyValue_get _ _ _ Hget).
  f_equal. unfold parsedFonts. rewrite Hsplit. f_equal.
  rewrite !map_app. cbn [map].
  assert (parsedFont (dq +:+ a)
          = CssEsc.cssEsc (Js.trim (Js.removeAll styleClose (dq +:+ a)))) as ->.
  { unfold parsedFont. by rewrite (hasNonAlpha_trim_dquote (dq +:+ a)). }
  assert (parsedFont (b +:+ dq)
          = CssEsc.cssEsc (Js.trim (Js.removeAll styleClose (b +:+ dq)))) as ->.
  { unfold parsedFont.
    rewrite (hasNonAlpha_trim_dquote (b +:+ dq)); [done|].
    rewrite existsb_append. apply orb_true_r. }
  reflexivity.
Qed.

Lemma C10_comma_inside_quotes_splits_witness :
  exists st',
    tidyRule None None 2
      (CSSStyleRule "p"
         (setProperty fontFamily
            ("Arial," +:+ dq +:+ "Foo, Bar" +:+ dq +:+ ",serif") emptyStyle))
      = Ok (CSSStyleRule "p" st') /\
    get st' fontFamily =
      Some ("Arial, " +:+ dq +:+ bs +:+ dq +:+ "Foo" +:+ dq +:+ ", "
            +:+ dq +:+ "Bar" +:+ bs +:+ dq +:+ dq +:+ ", serif").
Proof.
  destruct (C10_comma_inside_quotes_splits ["Arial"] ["serif"] "Foo" " Bar" None 2 "p"
              (setProperty fontFamily
                 ("Arial," +:+ dq +:+ "Foo, Bar" +:+ dq +:+ ",serif") emptyStyle)
              eq_refl eq_refl eq_refl eq_refl eq_refl)
    as (st' & Hrule & Hget).
  exists st'. split; [exact Hrule | exact Hget].
Defined.

End CommaSplit.

(** ** Running the rule pass twice *)

Section Idempotence.
Import Cssom TidyCss Settled.










End Idempotence.

Section PlainFonts.
Import TidyCss Settled.

















End PlainFonts.

Section RulePassTwice.
Import Cssom TidyCss Settled.

Lemma replaceFont_reaches (f : string) (n : nat) (st : CSSStyleDeclaration) :
  declares st fontFamily || (n =? 1) = true ->
  replaceFont (Some f) n st = setProperty fontFamily f st.
Proof. unfold replaceFont. by intros ->. Qed.


Lemma quoteFonts_declared (st : CSSStyleDeclaration) (v : string) :
  get st fontFamily = Some v -> Js.truthy v = true ->
  quoteFonts st = setProperty fontFamily (parsedFonts v) st.
Proof.
  intros Hget Hv. unfold quoteFonts, declares.
  by rewrite Hget, Hv, (getPropertyValue_get _ _ _ Hget).
Qed.







End RulePassTwice.

(** ** Documents *)

Section DocumentFacts.
Import Dom.

(** Induction on a node with the children of an element at hand. *)
Lemma Node_nested_ind (P : Node -> Prop) :
  (forall d, P (Text d)) ->
  (forall d, P (Comment d)) ->
  (forall tag attrs ch, Forall P ch -> P (Element tag attrs ch)) ->
  forall n, P n.
Proof.
  intros HText HComment HElement.
  fix IH 1. intros [d|d|tag attrs ch].
  - apply HText.
  - apply HComment.
  - apply HElement. induction ch as [|c ch IHch]; constructor; [apply IH | exact IHch].
Qed.

Lemma flat_map_nil_inv {A B} (f : A -> list B) (l : list A) :
  flat_map f l = [] -> Forall (fun x => f x = []) l.
Proof.
  induction l as [|x l IH]; simpl; [constructor|].
  intros [Hx Hl]%app_eq_nil. constructor; auto.
Qed.

(** Without style elements below it, a node is what is left of it. *)
Lemma removeStyles_without_styles (n : Node) :
  styleElements n = [] -> removeStyles n = [n].
Proof.
  induction n as [d|d|tag attrs ch IH] using Node_nested_ind; [done..|].
  simpl. destruct (String.eqb tag "style"); [done|]. simpl.
  intros Hch%flat_map_nil_inv. do 2 f_equal.
  induction IH as [|c ch Hc Hrest IHrest]; [done|].
  inversion Hch as [|? ? Hc' Hch']; subst. simpl.
  by rewrite (Hc Hc'), (IHrest Hch').
Qed.

Lemma removeStyles_list_without_styles (l : list Node) :
  flat_map styleElements l = [] -> flat_map removeStyles l = l.
Proof.
  intros Hl%flat_map_nil_inv.
  induction Hl as [|n l Hn Hl IH]; [done|]. simpl.
  by rewrite (removeStyles_without_styles n Hn), IH.
Qed.

(** Two rewrites of the head are one. *)
Lemma withHead_compose (f g : list Node -> list Node) (l : list Node) :
  bindR (withHead f l) (withHead g) = withHead (fun ch => g (f ch)) l.
Proof.
  induction l as [|n l IH]; [done|].
  destruct n as [d|d|tag attrs ch]; simpl.
  - rewrite <- IH. by destruct (withHead f l).
  - rewrite <- IH. by destruct (withHead f l).
  - destruct (String.eqb tag "head") eqn:Htag; simpl.
    + by rewrite Htag.
    + rewrite <- IH. destruct (withHead f l); simpl; [|done]. by rewrite Htag.
Qed.

(** A style element appended to the head is found in the document. *)
Lemma withHead_appended (f : list Node -> list Node) (content : list Node)
    (l l' : list Node) :
  withHead (fun ch => f ch ++ [styleElement content])%list l = Ok l' ->
  flat_map styleElements l' <> [].
Proof.
  revert l'. induction l as [|n l IH]; intros l'; [done|].
  assert (forall rest,
            bindR (withHead (fun ch => f ch ++ [styleElement content])%list l)
                  (fun rest' => Ok (n :: rest')) = Ok rest ->
            flat_map styleElements rest <> []) as Hskip.
  { intros rest.
    destruct (withHead _ l) as [rest'|] eqn:Hrest; [|done].
    simpl. intros [= <-]. simpl.
    intros [_ Hnil]%app_eq_nil. by apply (IH rest'). }
  destruct n as [d|d|tag attrs ch]; simpl; [apply Hskip..|].
  destruct (String.eqb tag "head") eqn:Htag; [|apply Hskip].
  intros [= <-]. simpl. rewrite flat_map_app. simpl.
  intros [Hhead _]%app_eq_nil.
  apply app_eq_nil in Hhead as [_ Hhead].
  apply app_eq_nil in Hhead as [_ Hhead]. done.
Qed.

End DocumentFacts.

Section DocumentStyles.
Import Dom.

(** Once the style elements are removed, none is left. *)
Lemma styleElements_removeStyles (n : Node) :
  flat_map styleElements (removeStyles n) = [].
Proof.
  induction n as [d|d|tag attrs ch IH] using Node_nested_ind; [done..|].
  cbn [removeStyles]. destruct (String.eqb tag "style") eqn:Htag; [done|].
  cbn [flat_map styleElements]. rewrite Htag, app_nil_r. cbn [app].
  induction IH as [|c ch Hc Hrest IHrest]; [done|].
  cbn [flat_map]. by rewrite flat_map_app, Hc, IHrest.
Qed.

Lemma styleElements_removeStyles_list (l : list Node) :
  flat_map styleElements (flat_map removeStyles l) = [].
Proof.
  induction l as [|n l IH]; [done|].
  cbn [flat_map]. by rewrite flat_map_app, styleElements_removeStyles, IH.
Qed.

(** In a tree without style elements, the style elements after a rewrite
    of the head are those of the new head. *)
Lemma withHead_styles (f : list Node -> list Node) (l l' ch : list Node) :
  headOf l = Some ch ->
  flat_map styleElements l = [] ->
  withHead f l = Ok l' ->
  flat_map styleElements l' = flat_map styleElements (f ch).
Proof.
  revert l'. induction l as [|n l IH]; intros l'; [done|].
  cbn [flat_map]. intros Hhead [Hn Hl]%app_eq_nil.
  assert (forall rest,
            headOf l = Some ch ->
            bindR (withHead f l) (fun rest' => Ok (n :: rest')) = Ok rest ->
            flat_map styleElements rest = flat_map styleElements (f ch)) as Hskip.
  { intros rest Hhead'.
    destruct (withHead f l) as [rest'|] eqn:Hrest; [|done].
    cbn [bindR]. intros [= <-]. cbn [flat_map].
    by rewrite Hn, (IH rest' Hhead' Hl). }
  destruct n as [d|d|tag attrs kids]; cbn [headOf withHead] in *;
    [by apply Hskip..|].
  destruct (String.eqb tag "head") eqn:Htag; [|by apply Hskip].
  injection Hhead as <-. intros [= <-].
  cbn [flat_map styleElements].
  destruct (String.eqb tag "style") eqn:Hstyle.
  { apply String.eqb_eq in Htag, Hstyle. congruence. }
  by rewrite Hl, app_nil_r.
Qed.

Lemma withHead_headOf (f : list Node -> list Node) (l ch : list Node) :
  headOf l = Some ch -> exists l', withHead f l = Ok l'.
Proof.
  induction l as [|n l IH]; [done|].
  destruct n as [d|d|tag attrs kids]; cbn [headOf withHead].
  - intros [l' ->]%IH. by eexists.
  - intros [l' ->]%IH. by eexists.
  - destruct (String.eqb tag "head"); [by eexists|].
    intros [l' ->]%IH. by eexists.
Qed.

End DocumentStyles.

(** ** The whole transform *)

Section WholeTransform.
Import Cssom Dom TidyCss.
Context `{Libraries}.

(** What [tidyCss] does to a document whose style elements hold no rule,
    when no override is asked for. *)
Lemma tidyCssDom_without_rules (dom : Document) (options : Options) :
  whenTruthy (fonts options) = None ->
  whenTruthy (backgroundColor options) = None ->
  CSSOM_parse (combine (querySelectorAllStyle dom)) = Ok [] ->
  cssCleaner_minify EmptyString = EmptyString ->
  tidyCssDom dom options =
    bindR
      (withHead
         (fun ch =>
            parseHeadFragment (collapseBlankLines (innerHTML "head" ch))
              ++ [styleElement []])%list
         (flat_map removeStyles (htmlChildren dom)))
      (fun children => Ok (mkDocument (doctype dom) (htmlAttrs dom) children)).
Proof.
  intros Hfonts Hcolour Hparse Hminify.
  unfold tidyCssDom. rewrite Hfonts, Hcolour. simpl.
  rewrite andb_false_r. simpl.
  fold (querySelectorAllStyle dom). rewrite Hparse. simpl.
  rewrite Hminify. simpl.
  rewrite <- (withHead_compose
                (fun ch => parseHeadFragment (collapseBlankLines (innerHTML "head" ch)))
                (fun ch => ch ++ [styleElement []])%list).
  by destruct (withHead _ (flat_map removeStyles (htmlChildren dom))).
Qed.

(** C9, as amended.  For a document whose style elements hold no rule,
    with no override asked for, the result is the document without its
    style elements (the document itself when it has none), the head
    parsed again from its text with the blank lines dropped, and one empty
    style element appended to the head: so the result always has a style
    element. *)
Theorem C9_without_rules_appends_empty_style (html : string) (options : Options) :
  let dom := JSDOM_parse html in
  whenTruthy (fonts options) = None ->
  whenTruthy (backgroundColor options) = None ->
  CSSOM_parse (combine (querySelectorAllStyle dom)) = Ok [] ->
  cssCleaner_minify EmptyString = EmptyString ->
  tidyCss html options =
    bindR
      (withHead
         (fun ch =>
            parseHeadFragment (collapseBlankLines (innerHTML "head" ch))
              ++ [styleElement []])%list
         (flat_map removeStyles (htmlChildren dom)))
      (fun children =>
         Ok (serialize (mkDocument (doctype dom) (htmlAttrs dom) children)))
  /\ (querySelectorAllStyle dom = [] ->
      flat_map removeStyles (htmlChildren dom) = htmlChildren dom)
  /\ (forall out, tidyCssDom dom options = Ok out -> querySelectorAllStyle out <> []).
Proof.
  intros dom Hfonts Hcolour Hparse Hminify.
  pose proof (tidyCssDom_without_rules dom options Hfonts Hcolour Hparse Hminify)
    as Hdom.
  split; [|split].
  - unfold tidyCss. fold dom. rewrite Hdom.
    by destruct (withHead _ (flat_map removeStyles (htmlChildren dom))).
  - apply removeStyles_list_without_styles.
  - intros out. rewrite Hdom.
    destruct (withHead _ (flat_map removeStyles (htmlChildren dom)))
      as [children|] eqn:Hhead; [|done].
    simpl. intros [= <-]. unfold querySelectorAllStyle. simpl.
    exact (withHead_appended
             (fun ch => parseHeadFragment (collapseBlankLines (innerHTML "head" ch)))
             [] _ _ Hhead).
Qed.

Lemma tidied_text_nodes_hold_no_style (s : string) :
  flat_map styleElements (setStyleInnerHTML s) = [].
Proof. unfold setStyleInnerHTML. by destruct (Js.isEmpty _). Qed.

End WholeTransform.

Section WholeTransformExamples.
Import Cssom Dom TidyCss.

Lemma C9_without_rules_appends_empty_style_witness :
  tidyCss "<html><head><title>x</title></head><body><p>y</p></body></html>" noOptions
    = Ok "<html><head><title>x</title><style></style></head><body><p>y</p></body></html>".
Proof.
  destruct (@C9_without_rules_appends_empty_style referenceLibraries
              "<html><head><title>x</title></head><body><p>y</p></body></html>"
              noOptions eq_refl eq_refl
              ltac:(vm_compute; reflexivity) ltac:(vm_compute; reflexivity))
    as (Hout & _ & _).
  rewrite Hout. vm_compute. reflexivity.
Defined.

(** C9, as stated, fails: a document without any style element comes back
    with an empty one in its head. *)
Lemma C9_counterexample :
  tidyCss "<html><head></head><body></body></html>" noOptions
    = Ok "<html><head><style></style></head><body></body></html>"
  /\ "<html><head><style></style></head><body></body></html>"
       <> "<html><head></head><body></body></html>".
Proof. split; [vm_compute; reflexivity | discriminate]. Qed.

End WholeTransformExamples.

Section TwoBlocks.
Import Cssom Dom TidyCss.
Context `{Libraries}.

(** C6.  A document whose style elements are two, [div{color:red}] and
    [p{color:blue}]: the result has one style element, and its content is
    the minified text of two rules, the [div] rule holding both [color]
    and [page-break-inside]. *)
Theorem C6_two_blocks_merge
    (html : string) (dom : Document) (first second : Node) (head : list Node) :
  let merged :=
    styleElement
      (setStyleInnerHTML
         (cssCleaner_minify
            ("div {color: red; page-break-inside: avoid;}" +:+ nl
             +:+ "p {color: blue;}" +:+ nl))) in
  JSDOM_parse html = dom ->
  querySelectorAllStyle dom = [first; second] ->
  innerHTMLOf first = "div{color:red}" ->
  innerHTMLOf second = "p{color:blue}" ->
  headOf (flat_map removeStyles (htmlChildren dom)) = Some head ->
  flat_map styleElements
    (parseHeadFragment (collapseBlankLines (innerHTML "head" head))) = [] ->
  CSSOM_parse "div{color:red}p{color:blue}" =
    Ok [CSSStyleRule "div" (setPropertyWith "color" "red" (Some EmptyString) emptyStyle);
        CSSStyleRule "p" (setPropertyWith "color" "blue" (Some EmptyString) emptyStyle)] ->
  exists out,
    tidyCss html noOptions = Ok (serialize out) /\
    tidyCssDom dom noOptions = Ok out /\
    querySelectorAllStyle out = [merged].
Proof.
  intros merged Hdom Hstyles Hfirst Hsecond Hhead Hreparsed Hparse.
  set (reparse := fun ch : list Node =>
         parseHeadFragment (collapseBlankLines (innerHTML "head" ch))).
  destruct (withHead_headOf (fun ch => reparse ch ++ [merged])%list _ _ Hhead)
    as [children Hchildren].
  exists (mkDocument (doctype dom) (htmlAttrs dom) children).
  assert (tidyCssDom dom noOptions
          = Ok (mkDocument (doctype dom) (htmlAttrs dom) children)) as Hout.
  { unfold tidyCssDom. rewrite Hstyles.
    cbn [length Nat.eqb andb bindR]. fold (querySelectorAllStyle dom).
    rewrite Hstyles.
    assert (combine [first; second] = "div{color:red}p{color:blue}") as ->.
    { unfold combine. cbn [fold_left]. by rewrite Hfirst, Hsecond. }
    rewrite Hparse.
    rewrite <- (withHead_compose reparse (fun ch => ch ++ [merged])%list) in Hchildren.
    fold reparse.
    destruct (withHead reparse (flat_map removeStyles (htmlChildren dom)))
      as [children3|]; [|done].
    cbn [bindR] in *.
    change (tidyRules _ _ _ _)
      with (Ok [CSSStyleRule "div"
                  (setProperty "page-break-inside" "avoid"
                     (setPropertyWith "color" "red" (Some EmptyString) emptyStyle));
                CSSStyleRule "p"
                  (setPropertyWith "color" "blue" (Some EmptyString) emptyStyle)]).
    cbn [bindR].
    change (Cssom.toString _)
      with ("div {color: red; page-break-inside: avoid;}" +:+ nl
            +:+ "p {color: blue;}" +:+ nl).
    fold merged. by rewrite Hchildren. }
  split; [|split; [exact Hout|]].
  - unfold tidyCss. by rewrite Hdom, Hout.
  - unfold querySelectorAllStyle. cbn [htmlChildren].
    rewrite (withHead_styles _ _ _ _ Hhead (styleElements_removeStyles_list _) Hchildren).
    cbv beta. subst reparse. cbv beta. rewrite flat_map_app, Hreparsed.
    subst merged. cbn. by rewrite tidied_text_nodes_hold_no_style.
Qed.

End TwoBlocks.

Section TwoBlocksExample.
Import Cssom Dom TidyCss.

Lemma C6_two_blocks_merge_witness :
  tidyCss
    "<html><head><style>div{color:red}</style><title>t</title></head><body><style>p{color:blue}</style><p>x</p></body></html>"
    noOptions
  = Ok "<html><head><title>t</title><style>div{color:red;page-break-inside:avoid}p{color:blue}</style></head><body><p>x</p></body></html>".
Proof.
  destruct (@C6_two_blocks_merge referenceLibraries
              "<html><head><style>div{color:red}</style><title>t</title></head><body><style>p{color:blue}</style><p>x</p></body></html>"
              _ (styleElement [Text "div{color:red}"]) (styleElement [Text "p{color:blue}"])
              [Element "title" [] [Text "t"]]
              eq_refl
              ltac:(vm_compute; reflexivity) eq_refl eq_refl
              ltac:(vm_compute; reflexivity) ltac:(vm_compute; reflexivity)
              ltac:(vm_compute; reflexivity))
    as (out & Hhtml & Hout & _).
  rewrite Hhtml. f_equal.
  assert (Ok out = Ok (JSDOM_parse
    "<html><head><title>t</title><style>div{color:red;page-break-inside:avoid}p{color:blue}</style></head><body><p>x</p></body></html>"))
    as Heq by (rewrite <- Hout; vm_compute; reflexivity).
  injection Heq as ->. vm_compute. reflexivity.
Defined.

End TwoBlocksExample.

(** ** The workspace *)

Section CleanupFacts.
Import Workspace.

Lemma existsb_slash_cons (c : ascii) (rest : string) :
  Js.existsb (Ascii.eqb slash) (String c rest) = false ->
  Ascii.eqb c slash = false /\ Js.existsb (Ascii.eqb slash) rest = false.
Proof.
  cbn [Js.existsb]. intros [Hc Hrest]%orb_false_iff.
  by rewrite Ascii.eqb_sym.
Qed.

(** A star matches any run of characters without a slash. *)
Lemma globMatch_star (rest : string) :
  Js.existsb (Ascii.eqb slash) rest = false -> globMatch "*" rest = true.
Proof.
  induction rest as [|c rest IH]; [done|].
  intros [Hc Hrest]%existsb_slash_cons.
  change (globMatch "*" (String c rest))
    with (globMatch EmptyString (String c rest)
          || negb (Ascii.eqb c slash) && globMatch "*" rest).
  by rewrite Hc, IH.
Qed.

(** A pattern matches the path it spells, whatever follows being matched
    by what follows. *)
Lemma globMatch_prefix (pre pat path : string) :
  globMatch pat path = true -> globMatch (pre +:+ pat) (pre +:+ path) = true.
Proof.
  intros Hmatch. induction pre as [|p pre IH]; [done|].
  change (String p pre +:+ pat) with (String p (pre +:+ pat)).
  change (String p pre +:+ path) with (String p (pre +:+ path)).
  destruct (Ascii.eqb p "*") eqn:Hstar.
  - apply Ascii.eqb_eq in Hstar as ->.
    change (globMatch (String "*" (pre +:+ pat)) (String "*" (pre +:+ path)))
      with (globMatch (pre +:+ pat) (String "*" (pre +:+ path))
            || negb (Ascii.eqb "*" slash)
               && globMatch (String "*" (pre +:+ pat)) (pre +:+ path)).
    apply orb_true_iff. right. apply andb_true_iff. split; [done|].
    destruct (pre +:+ path) as [|c rest] eqn:Hpath.
    + change (globMatch (String "*" (pre +:+ pat)) EmptyString)
        with (globMatch (pre +:+ pat) EmptyString || false).
      by rewrite IH.
    + change (globMatch (String "*" (pre +:+ pat)) (String c rest))
        with (globMatch (pre +:+ pat) (String c rest)
              || negb (Ascii.eqb c slash)
                 && globMatch (String "*" (pre +:+ pat)) rest).
      by rewrite IH.
  - cbn [globMatch]. rewrite Hstar.
    destruct (Ascii.eqb p "?") eqn:Hquery.
    + apply Ascii.eqb_eq in Hquery as ->. by rewrite IH.
    + by rewrite Ascii.eqb_refl, IH.
Qed.

Lemma globMatch_prefixed (pre rest : string) :
  Js.existsb (Ascii.eqb slash) rest = false ->
  globMatch (pre +:+ "*") (pre +:+ rest) = true.
Proof.
  intros Hrest. apply globMatch_prefix. by apply globMatch_star.
Qed.

Lemma promiseAll_unlink_there (p : string) (l : list string) (s : State)
    (data : list Byte.byte) :
  files s !! p = Some data ->
  promiseAll (map unlink (p :: l)) s =
    promiseAll (map unlink l)
      (mkState (delete p (files s)) (request s) (log s ++ [Unlinked p])%list).
Proof. intros Hp. cbn [map promiseAll]. unfold unlink at 1. by rewrite Hp. Qed.

Lemma promiseAll_unlink_gone (p : string) (l : list string) (s : State) :
  files s !! p = None ->
  promiseAll (map unlink (p :: l)) s =
    (fst (promiseAll (map unlink l) s), Thrown (SystemError "ENOENT")).
Proof. intros Hp. cbn [map promiseAll]. unfold unlink at 1. by rewrite Hp. Qed.

(** What unlinking a list of paths leaves on disk. *)
Lemma promiseAll_unlink_files (l : list string) (s : State) (k : string) :
  files (fst (promiseAll (map unlink l) s)) !! k =
    if bool_decide (k ∈ l) then None else files s !! k.
Proof.
  revert s. induction l as [|p l IH]; intros s; [done|].
  destruct (files s !! p) as [data|] eqn:Hp.
  - rewrite (promiseAll_unlink_there p l s data Hp), IH. cbn [files].
    destruct (decide (k = p)) as [->|Hne].
    + rewrite (bool_decide_eq_true_2 (p ∈ p :: l)) by apply list_elem_of_here.
      case_bool_decide; [done | apply lookup_delete_eq].
    + rewrite lookup_delete_ne by done.
      rewrite (bool_decide_ext (k ∈ p :: l) (k ∈ l)); [done|].
      rewrite elem_of_cons. split; [by intros [?|?] | by right].
  - rewrite (promiseAll_unlink_gone p l s Hp). cbn [fst]. rewrite IH.
    destruct (decide (k = p)) as [->|Hne].
    + rewrite (bool_decide_eq_true_2 (p ∈ p :: l)) by apply list_elem_of_here.
      by case_bool_decide.
    + rewrite (bool_decide_ext (k ∈ p :: l) (k ∈ l)); [done|].
      rewrite elem_of_cons. split; [by intros [?|?] | by right].
Qed.

(** When every path is there, once, each is unlinked and nothing is
    thrown. *)
Lemma promiseAll_unlink_done (l : list string) (s : State) :
  NoDup l ->
  (forall p, p ∈ l -> is_Some (files s !! p)) ->
  snd (promiseAll (map unlink l) s) = Done tt /\
  log (fst (promiseAll (map unlink l) s)) = (log s ++ map Unlinked l)%list.
Proof.
  revert s. induction l as [|p l IH]; intros s Hnodup Hthere.
  { cbn. by rewrite app_nil_r. }
  apply NoDup_cons in Hnodup as [Hp Hnodup].
  destruct (Hthere p (list_elem_of_here _ _)) as [data Hdata].
  rewrite (promiseAll_unlink_there p l s data Hdata).
  destruct (IH (mkState (delete p (files s)) (request s) (log s ++ [Unlinked p])%list)
               Hnodup) as [Hdone Hlog].
  { intros q Hq. cbn [files]. rewrite lookup_delete_ne by (by intros ->).
    apply Hthere. by apply list_elem_of_further. }
  split; [exact Hdone|]. rewrite Hlog. cbn [log map]. by rewrite <- app_assoc.
Qed.

(** The log only ever grows by the paths unlinked, each of them a path of
    the list. *)
Lemma promiseAll_unlink_log (l : list string) (s : State) :
  NoDup l ->
  exists removed,
    log (fst (promiseAll (map unlink l) s)) = (log s ++ map Unlinked removed)%list /\
    NoDup removed /\ (forall p, p ∈ removed -> p ∈ l).
Proof.
  revert s. induction l as [|p l IH]; intros s Hnodup.
  { exists []. cbn. rewrite app_nil_r. split; [done|]. split; [constructor|done]. }
  apply NoDup_cons in Hnodup as [Hp Hnodup].
  destruct (files s !! p) as [data|] eqn:Hdata.
  - rewrite (promiseAll_unlink_there p l s data Hdata).
    destruct (IH (mkState (delete p (files s)) (request s) (log s ++ [Unlinked p])%list)
                 Hnodup) as (removed & Hlog & Hnd & Hsub).
    exists (p :: removed). rewrite Hlog. cbn [log map]. rewrite <- app_assoc.
    split; [done|]. split.
    + apply NoDup_cons. split; [|done]. intros Hin. by apply Hp, Hsub.
    + intros q [->|Hq]%elem_of_cons; [apply list_elem_of_here|].
      by apply list_elem_of_further, Hsub.
  - rewrite (promiseAll_unlink_gone p l s Hdata). cbn [fst].
    destruct (IH s Hnodup) as (removed & Hlog & Hnd & Hsub).
    exists removed. split; [done|]. split; [done|].
    intros q Hq. by apply list_elem_of_further, Hsub.
Qed.


Lemma elem_of_globbed (pattern : string) (fs : Files) (p : string) :
  p ∈ List.filter (globMatch pattern) (elements (dom fs)) <->
  globMatch pattern p = true /\ is_Some (fs !! p).
Proof.
  rewrite list_elem_of_In, filter_In, <- list_elem_of_In, elem_of_elements, elem_of_dom.
  tauto.
Qed.

Lemma NoDup_globbed (pattern : string) (fs : Files) :
  NoDup (List.filter (globMatch pattern) (elements (dom fs))).
Proof.
  apply NoDup_ListNoDup, List.NoDup_filter, NoDup_ListNoDup, NoDup_elements.
Qed.

End CleanupFacts.

Section Cleanup.
Import Workspace ReferenceRoute.

(** The hook, written out for a request that has a workspace. *)
Lemma onSendAmid_unfold (other : Files -> Files) (reply : string) (s : State)
    (loc : DocLocation) :
  docLocationOf (request s) = Some loc ->
  let found :=
    List.filter (globMatch (joinSafe (directory loc) (id loc) +:+ "*"))
                (elements (dom (files s))) in
  let scanned := mkState (other (files s)) (request s) (log s) in
  onSendAmid other reply s =
    match promiseAll (map unlink found) scanned with
    | (s', Done _) => (s', Done reply)
    | (s', Thrown e) => (s', Thrown e)
    end.
Proof.
  intros Hloc. cbv zeta.
  unfold onSendAmid, bind, getRequest, globSync, ret. rewrite Hloc.
  by destruct (promiseAll _ _) as [s' [[]|e]].
Qed.

(** With a workspace and nothing else touching the disk, the hook returns
    the payload and leaves no file named [directory/id...]. *)
Lemma onSend_cleans (reply : string) (s : State) (loc : DocLocation) :
  docLocationOf (request s) = Some loc ->
  snd (onSend reply s) = Done reply /\
  forall rest, Js.existsb (Ascii.eqb slash) rest = false ->
               files (fst (onSend reply s))
                 !! (joinSafe (directory loc) (id loc) +:+ rest) = None.
Proof.
  intros Hloc.
  unfold onSend. rewrite (onSendAmid_unfold _ reply s loc Hloc). cbv zeta.
  set (workspace := joinSafe (directory loc) (id loc)).
  set (found := List.filter _ _).
  set (scanned := mkState _ _ _).
  destruct (promiseAll_unlink_done found scanned) as [Hdone _].
  { apply NoDup_globbed. }
  { intros p Hp. by apply elem_of_globbed in Hp as [_ Hp]. }
  pose proof (promiseAll_unlink_files found scanned) as Hfiles.
  destruct (promiseAll (map unlink found) scanned) as [s' r].
  simpl in Hdone, Hfiles. subst r. split; [done|].
  intros rest Hrest. cbn [fst]. rewrite Hfiles.
  case_bool_decide as Hin; [done|].
  destruct (files s !! (workspace +:+ rest)) as [data|] eqn:Hthere; [|done].
  exfalso. apply Hin. apply elem_of_globbed.
  split; [by apply globMatch_prefixed | by eexists].
Qed.




End Cleanup.

Section LogFacts.
Import Workspace.







(** What the hook adds to the log: the paths it unlinked, each once. *)
Lemma onSend_log (reply : string) (s : State) :
  exists removed,
    log (fst (onSend reply s)) = (log s ++ map Unlinked removed)%list /\
    NoDup removed.
Proof.
  destruct (docLocationOf (request s)) as [loc|] eqn:Hloc.
  - unfold onSend. rewrite (onSendAmid_unfold _ reply s loc Hloc). cbv zeta.
    set (found := List.filter _ _).
    set (scanned := mkState _ _ _).
    destruct (promiseAll_unlink_log found scanned (NoDup_globbed _ _))
      as (removed & Hlog & Hnodup & _).
    exists removed. split; [|done].
    by destruct (promiseAll (map unlink found) scanned) as [s' [[]|e]].
  - exists []. split; [|constructor].
    unfold onSend, onSendAmid, bind, getRequest, ret. rewrite Hloc.
    simpl. by rewrite app_nil_r.
Qed.

End LogFacts.

Section RouteFacts.
Import Workspace.
Context `{Libraries}.
Variable tempDir : string.
Variable fromBuffer : list Byte.byte -> option string.
Variable unrtf_convert : Files -> string -> Files * Outcome string.
Variable fixUtf8 : string -> string.
Variable tidyHtml : string -> string.

(** The sniffer reports RTF only for a buffer that begins with the RTF
    signature. *)
Hypothesis fromBuffer_rtf :
  forall buffer, fromBuffer buffer = Some rtfMime -> rtfSignature `prefix_of` buffer.

Lemma contentTypeParser_rejects (body : list Byte.byte) (s : State) :
  ~ rtfSignature `prefix_of` body ->
  contentTypeParser fromBuffer body s = (s, Thrown unsupportedMediaType).
Proof.
  intros Hsig. unfold contentTypeParser.
  destruct (fromBuffer body) as [mime|] eqn:Hmime; [|done].
  destruct (String.eqb mime rtfMime) eqn:Heq; [|done].
  apply String.eqb_eq in Heq as ->. by apply fromBuffer_rtf in Hmime.
Qed.

(** C2.  A body that does not begin with the RTF signature (an empty body
    among them) is refused by the parser with 415 Unsupported Media Type;
    the request ends without a workspace: the disk is as it was and
    nothing but the response is logged.  The response is the 415, unless
    the Accept header had already been refused with 406. *)
Theorem C2_unsupported_media_type_no_staging
    (req : Inbound) (uuid : string) (s : State) :
  ~ rtfSignature `prefix_of` payload req ->
  contentTypeParser fromBuffer (payload req) s = (s, Thrown unsupportedMediaType) /\
  let s' := fst (handleRequest tempDir fromBuffer unrtf_convert fixUtf8 tidyHtml
                   req uuid s) in
  files s' = files s /\
  docLocationOf (request s') = None /\
  log s' = (log s ++ [if acceptsHtml req
                      then Sent 415 "Unsupported Media Type"
                      else Sent 406 "Not Acceptable"])%list.
Proof.
  intros Hsig. split; [by apply contentTypeParser_rejects|].
  cbv [handleRequest respond bind catch onRequest getRequest setRequest ret throw].
  destruct (acceptsHtml req).
  - rewrite contentTypeParser_rejects by done. by cbn.
  - by cbn.
Qed.












End RouteFacts.

Section RouteExamples.
Import Workspace ReferenceRoute.

Lemma fromBuffer_sound (buffer : list Byte.byte) :
  fromBuffer buffer = Some rtfMime -> rtfSignature `prefix_of` buffer.
Proof. unfold fromBuffer. by case_bool_decide. Qed.

Lemma C2_unsupported_media_type_no_staging_witness :
  let req := mkInbound [Byte.x25; Byte.x50; Byte.x44; Byte.x46] true
                       (mkQuery None None) in
  let s' := fst (handleRequest req "abc" (freshState ∅)) in
  files s' = ∅ /\ log s' = [Sent 415 "Unsupported Media Type"].
Proof.
  intros req.
  destruct (C2_unsupported_media_type_no_staging "tmp" fromBuffer unrtf_convert
              (fun s => s) (fun s => s) fromBuffer_sound req "abc" (freshState ∅))
    as (_ & Hfiles & _ & Hlog).
  { vm_compute. intros [k Hk]. discriminate Hk. }
  split; [exact Hfiles | exact Hlog].
Defined.



End RouteExamples.

(** ** More on strings *)

Section MoreStringFacts.

Lemma append_empty (s : string) : s +:+ EmptyString = s.
Proof. induction s as [|c s IH]; simpl; [done | by rewrite IH]. Qed.

Lemma isNewline_isSpace (c : ascii) : Js.isNewline c = true -> Js.isSpace c = true.
Proof.
  unfold Js.isNewline, Js.isSpace. cbv zeta.
  intros [Hc|Hc]%orb_true_iff; apply Nat.eqb_eq in Hc; by rewrite Hc.
Qed.

Lemma forallb_append (f : ascii -> bool) (a b : string) :
  Js.forallb f (a +:+ b) = Js.forallb f a && Js.forallb f b.
Proof.
  induction a as [|c a IH]; simpl; [done|]. rewrite IH. by destruct (f c).
Qed.

End MoreStringFacts.

(** ** More on the rule pass *)

Section RulePassShape.
Import Cssom TidyCss Rules.

Lemma tidyRules_cons (nf nb : option string) (n : nat) (r : CSSRule)
    (rules : list CSSRule) :
  tidyRules nf nb n (r :: rules) =
    bindR (tidyRule nf nb n r)
      (fun r' => bindR (tidyRules nf nb n rules) (fun rs => Ok (r' :: rs))).
Proof. reflexivity. Qed.

Lemma tidyRule_error (nf nb : option string) (n : nat) (r : CSSRule) (e : Error) :
  tidyRule nf nb n r = Err e -> e = TypeError /\ isStyleRule r = false.
Proof. destruct r; [done|..]; by intros [= <-]. Qed.

Lemma tidyRules_error (nf nb : option string) (n : nat) (rules : list CSSRule)
    (e : Error) :
  tidyRules nf nb n rules = Err e -> e = TypeError.
Proof.
  induction rules as [|r rules IH]; [done|].
  rewrite tidyRules_cons.
  destruct (tidyRule nf nb n r) as [r'|e'] eqn:Hr; cbn [bindR].
  - destruct (tidyRules nf nb n rules) as [rs|e'']; cbn [bindR]; [done|].
    intros [= <-]. by apply IH.
  - intros [= <-]. by apply tidyRule_error in Hr as [-> _].
Qed.

Lemma tidyRules_ok_iff (nf nb : option string) (n : nat) (rules : list CSSRule) :
  (exists rules', tidyRules nf nb n rules = Ok rules') <->
  forallb isStyleRule rules = true.
Proof.
  induction rules as [|r rules IH].
  { split; [done | by exists []]. }
  rewrite tidyRules_cons. cbn [forallb]. rewrite andb_true_iff, <- IH.
  destruct r as [sel st|st|text]; cbn [tidyRule isStyleRule bindR].
  - split.
    + intros [rules' Hrules]. split; [done|].
      destruct (tidyRules nf nb n rules) as [rs|]; [by eexists | done].
    + intros [_ [rs ->]]. by eexists.
  - split; [by intros [? ?] | by intros [? _]].
  - split; [by intros [? ?] | by intros [? _]].
Qed.

Lemma tidyRules_selectors (nf nb : option string) (n : nat)
    (rules rules' : list CSSRule) :
  tidyRules nf nb n rules = Ok rules' ->
  map selectorOf rules' = map selectorOf rules /\
  forallb isStyleRule rules' = true.
Proof.
  revert rules'. induction rules as [|r rules IH]; intros rules'.
  { by intros [= <-]. }
  rewrite tidyRules_cons.
  destruct r as [sel st|st|text]; cbn [tidyRule bindR]; [|done..].
  destruct (tidyRules nf nb n rules) as [rs|] eqn:Hrs; cbn [bindR]; [|done].
  intros [= <-]. destruct (IH rs eq_refl) as [Hsel Hall].
  cbn [map selectorOf forallb isStyleRule]. by rewrite Hsel, Hall.
Qed.

End RulePassShape.

Section RulePassFrame.
Import Cssom TidyCss Rules.

Lemma importants_setProperty (name value : string) (st : CSSStyleDeclaration) :
  importants (setProperty name value st) !! name = None.
Proof. unfold setProperty, setPropertyWith; simpl. apply lookup_delete_eq. Qed.

Lemma importants_setProperty_ne (name other value : string) (st : CSSStyleDeclaration) :
  name <> other ->
  importants (setProperty name value st) !! other = importants st !! other.
Proof.
  intros Hne. unfold setProperty, setPropertyWith; simpl. by apply lookup_delete_ne.
Qed.

(** [setProperty] adds at most its own name to the index, at the end. *)
Lemma names_setProperty (name value : string) (st : CSSStyleDeclaration) :
  names (setProperty name value st) = names st \/
  names (setProperty name value st) = (names st ++ [name])%list.
Proof.
  unfold setProperty, setPropertyWith; simpl.
  destruct (declares st name); [|by right].
  destruct (inNames name (names st)); [by left | by right].
Qed.

Lemma framed_refl (touched : list string) (st : CSSStyleDeclaration) :
  framed touched st st.
Proof.
  split; [done|]. exists []. split; [by rewrite app_nil_r|].
  intros name Hin. by apply elem_of_nil in Hin.
Qed.

Lemma framed_trans (touched : list string) (st1 st2 st3 : CSSStyleDeclaration) :
  framed touched st1 st2 -> framed touched st2 st3 -> framed touched st1 st3.
Proof.
  intros [Hkeep12 (added12 & Hnames12 & Hadded12)]
         [Hkeep23 (added23 & Hnames23 & Hadded23)].
  split.
  - intros name Hname.
    destruct (Hkeep23 name Hname) as [-> ->]. by apply Hkeep12.
  - exists (added12 ++ added23)%list. split.
    + by rewrite Hnames23, Hnames12, app_assoc.
    + intros name [Hin|Hin]%elem_of_app; auto.
Qed.

Lemma framed_setProperty (touched : list string) (name value : string)
    (st : CSSStyleDeclaration) :
  name ∈ touched -> framed touched st (setProperty name value st).
Proof.
  intros Hin. split.
  - intros other Hother.
    assert (name <> other) as Hne by (by intros ->).
    by rewrite get_setProperty_ne, importants_setProperty_ne.
  - destruct (names_setProperty name value st) as [->| ->].
    + exists []. split; [by rewrite app_nil_r|].
      intros x Hx. by apply elem_of_nil in Hx.
    + exists [name]. split; [done|].
      by intros x ->%list_elem_of_singleton.
Qed.

Lemma framed_tidied (nf nb : option string) (n : nat) (sel : string)
    (st : CSSStyleDeclaration) :
  framed writtenNames st
    (avoidPageBreak nb sel (quoteFonts (replaceFont nf n st))).
Proof.
  assert (fontFamily ∈ writtenNames) as Hfont by (by apply list_elem_of_here).
  assert ("page-break-inside" ∈ writtenNames) as Hbreak
    by (apply list_elem_of_further, list_elem_of_here).
  assert ("background-color" ∈ writtenNames) as Hcolour
    by (do 2 apply list_elem_of_further; apply list_elem_of_here).
  apply framed_trans with (st2 := replaceFont nf n st).
  { unfold replaceFont. destruct nf as [f|]; [|apply framed_refl].
    destruct (declares st fontFamily || (n =? 1)); [|apply framed_refl].
    by apply framed_setProperty. }
  apply framed_trans with (st2 := quoteFonts (replaceFont nf n st)).
  { unfold quoteFonts.
    destruct (declares (replaceFont nf n st) fontFamily); [|apply framed_refl].
    by apply framed_setProperty. }
  unfold avoidPageBreak. set (st' := quoteFonts _).
  destruct (String.eqb (Js.take 3 sel) "div"); [|apply framed_refl].
  destruct nb as [c|].
  - apply framed_trans with (st2 := setProperty "page-break-inside" "avoid" st').
    + exact (framed_setProperty _ _ _ _ Hbreak).
    + exact (framed_setProperty _ _ _ _ Hcolour).
  - exact (framed_setProperty _ _ _ _ Hbreak).
Qed.

Lemma take_3_div (sel : string) :
  String.eqb (Js.take 3 sel) "div" = Js.startsWith "div" sel.
Proof.
  destruct sel as [|a [|b [|c rest]]]; cbn [Js.take Js.startsWith String.eqb];
    rewrite ?(Ascii.eqb_sym a), ?(Ascii.eqb_sym b), ?(Ascii.eqb_sym c);
    repeat match goal with |- context [Ascii.eqb ?x ?y] => destruct (Ascii.eqb x y) end;
    reflexivity.
Qed.

End RulePassFrame.

Section RulePassTheorems.
Import Cssom TidyCss Rules.

(** X1.  The rule pass throws exactly when the style sheet holds a rule
    without [style] or without [selectorText] (an at-rule), and what it
    throws is the [TypeError] of the property read. *)
Theorem rule_pass_fails_exactly_on_at_rules
    (nf nb : option string) (n : nat) (rules : list CSSRule) :
  (tidyRules nf nb n rules = Err TypeError <-> forallb isStyleRule rules = false) /\
  (forall e, tidyRules nf nb n rules = Err e -> e = TypeError).
Proof.
  split; [|intros e; apply tidyRules_error].
  pose proof (tidyRules_ok_iff nf nb n rules) as Hok.
  destruct (forallb isStyleRule rules).
  - destruct (proj2 Hok eq_refl) as [rules' ->]. by split.
  - split; [done|]. intros _.
    destruct (tidyRules nf nb n rules) as [rules'|e] eqn:Hrules.
    + assert (false = true) as Habsurd by (apply Hok; by eexists). done.
    + by rewrite (tidyRules_error _ _ _ _ _ Hrules).
Qed.

(** X2.  The rule pass keeps the rules as they stand: as many, in the same
    order, each with the selector it had. *)
Theorem rule_pass_keeps_selectors
    (nf nb : option string) (n : nat) (rules rules' : list CSSRule) :
  tidyRules nf nb n rules = Ok rules' ->
  map selectorOf rules' = map selectorOf rules /\
  length rules' = length rules.
Proof.
  intros [Hsel _]%tidyRules_selectors. split; [done|].
  by rewrite <- (length_map selectorOf rules'), Hsel, length_map.
Qed.

Lemma rule_pass_keeps_selectors_witness :
  exists rules',
    tidyRules (Some "Arial") None 1
      [CSSStyleRule "p" emptyStyle; CSSStyleRule "div.box" emptyStyle] = Ok rules' /\
    map selectorOf rules' = [Some "p"; Some "div.box"].
Proof.
  eexists. split; [reflexivity|].
  exact (proj1 (rule_pass_keeps_selectors (Some "Arial") None 1
                  [CSSStyleRule "p" emptyStyle; CSSStyleRule "div.box" emptyStyle]
                  _ eq_refl)).
Defined.

(** X3.  A property other than [font-family], [page-break-inside] and
    [background-color] leaves the rule pass with the value and the priority
    it had. *)
Theorem rule_pass_keeps_other_properties
    (nf nb : option string) (n : nat) (sel : string)
    (st st' : CSSStyleDeclaration) (name : string) :
  tidyRule nf nb n (CSSStyleRule sel st) = Ok (CSSStyleRule sel st') ->
  name <> "font-family" -> name <> "page-break-inside" ->
  name <> "background-color" ->
  get st' name = get st name /\
  getPropertyValue st' name = getPropertyValue st name /\
  getPropertyPriority st' name = getPropertyPriority st name.
Proof.
  intros [= <-] Hfont Hbreak Hcolour.
  destruct (framed_tidied nf nb n sel st) as [Hkeep _].
  destruct (Hkeep name) as [Hget Himportant].
  { intros Hin. repeat apply elem_of_cons in Hin as [->|Hin]; try done.
    by apply elem_of_nil in Hin. }
  split; [exact Hget|]. split.
  - unfold getPropertyValue. unfold get in Hget. by rewrite Hget.
  - unfold getPropertyPriority. by rewrite Himportant.
Qed.

Lemma rule_pass_keeps_other_properties_witness :
  let st := setPropertyWith "color" "red" (Some "important") emptyStyle in
  exists st',
    tidyRule (Some "Arial") (Some "white") 1 (CSSStyleRule "div" st)
      = Ok (CSSStyleRule "div" st') /\
    getPropertyValue st' "color" = "red" /\
    getPropertyPriority st' "color" = "important".
Proof.
  intros st. eexists. split; [reflexivity|].
  exact (proj2 (rule_pass_keeps_other_properties (Some "Arial") (Some "white") 1
                  "div" st _ "color" eq_refl
                  ltac:(discriminate) ltac:(discriminate) ltac:(discriminate))).
Defined.

(** X4.  The rule pass never removes a declaration nor moves one: the index
    of a rule's properties afterwards is the index it had, followed by those
    of [font-family], [page-break-inside] and [background-color] that the
    pass added. *)
Theorem rule_pass_appends_declarations
    (nf nb : option string) (n : nat) (sel : string)
    (st st' : CSSStyleDeclaration) :
  tidyRule nf nb n (CSSStyleRule sel st) = Ok (CSSStyleRule sel st') ->
  exists added,
    names st' = (names st ++ added)%list /\
    forall name, name ∈ added ->
      name ∈ ["font-family"; "page-break-inside"; "background-color"].
Proof.
  intros [= <-]. by destruct (framed_tidied nf nb n sel st) as [_ Hadded].
Qed.

Lemma rule_pass_appends_declarations_witness :
  let st := setProperty "color" "red" (setProperty "margin" "0" emptyStyle) in
  exists st' added,
    tidyRule (Some "Arial") None 1 (CSSStyleRule "div" st)
      = Ok (CSSStyleRule "div" st') /\
    names st' = ("margin" :: "color" :: added)%list.
Proof.
  intros st.
  destruct (rule_pass_appends_declarations (Some "Arial") None 1 "div" st _ eq_refl)
    as (added & Hnames & _).
  eexists. exists added. split; [reflexivity|]. exact Hnames.
Defined.

(** X5.  Every rule whose selector text begins with [div] leaves the pass
    with [page-break-inside: avoid] and, when a colour is configured, with
    that background colour; any other rule keeps what it had for both. *)
Theorem div_rules_avoid_page_breaks
    (nf nb : option string) (n : nat) (sel : string)
    (st st' : CSSStyleDeclaration) :
  tidyRule nf nb n (CSSStyleRule sel st) = Ok (CSSStyleRule sel st') ->
  get st' "page-break-inside" =
    (if Js.startsWith "div" sel then Some "avoid" else get st "page-break-inside") /\
  get st' "background-color" =
    (match nb with
     | Some colour =>
         if Js.startsWith "div" sel then Some colour else get st "background-color"
     | None => get st "background-color"
     end).
Proof.
  intros [= <-].
  assert (forall name, name <> fontFamily ->
            get (quoteFonts (replaceFont nf n st)) name = get st name) as Hfonts.
  { intros name Hname. unfold quoteFonts, replaceFont.
    destruct nf as [f|].
    - destruct (declares st fontFamily || (n =? 1)).
      + destruct (declares (setProperty fontFamily f st) fontFamily);
          rewrite ?get_setProperty_ne; done.
      + destruct (declares st fontFamily); rewrite ?get_setProperty_ne; done.
    - destruct (declares st fontFamily); rewrite ?get_setProperty_ne; done. }
  unfold avoidPageBreak. rewrite take_3_div.
  destruct (Js.startsWith "div" sel).
  - destruct nb as [colour|].
    + rewrite get_setProperty, get_setProperty_ne, get_setProperty; done.
    + rewrite get_setProperty, get_setProperty_ne, Hfonts; done.
  - rewrite !Hfonts by done. by destruct nb.
Qed.

Lemma div_rules_avoid_page_breaks_witness :
  (exists st',
     tidyRule None (Some "white") 2 (CSSStyleRule "div.page > p" emptyStyle)
       = Ok (CSSStyleRule "div.page > p" st') /\
     get st' "page-break-inside" = Some "avoid" /\
     get st' "background-color" = Some "white") /\
  (exists st',
     tidyRule None (Some "white") 2 (CSSStyleRule "p, div" emptyStyle)
       = Ok (CSSStyleRule "p, div" st') /\
     get st' "page-break-inside" = None /\
     get st' "background-color" = None).
Proof.
  split; (eexists; split; [reflexivity|]).
  - exact (div_rules_avoid_page_breaks None (Some "white") 2 "div.page > p"
             emptyStyle _ eq_refl).
  - exact (div_rules_avoid_page_breaks None (Some "white") 2 "p, div"
             emptyStyle _ eq_refl).
Defined.

(** X6.  A rule that declares a font family loses the priority of that
    declaration: whether the value is replaced by the override or only
    quoted, it is written back without [!important]. *)
Theorem font_family_priority_dropped
    (nf nb : option string) (n : nat) (sel : string)
    (st st' : CSSStyleDeclaration) :
  declares st fontFamily = true ->
  tidyRule nf nb n (CSSStyleRule sel st) = Ok (CSSStyleRule sel st') ->
  getPropertyPriority st' fontFamily = EmptyString /\
  declText st' fontFamily =
    "font-family: " +:+ getPropertyValue st' fontFamily +:+ ";".
Proof.
  intros Hdeclares [= <-].
  set (st' := avoidPageBreak nb sel (quoteFonts (replaceFont nf n st))).
  assert (importants st' !! fontFamily = None) as Hnone.
  { assert (importants (quoteFonts (replaceFont nf n st)) !! fontFamily = None)
      as Hquoted.
    { unfold quoteFonts, replaceFont.
      destruct nf as [f|]; rewrite ?Hdeclares; cbn [orb].
      - destruct (declares (setProperty fontFamily f st) fontFamily);
          apply importants_setProperty.
      - apply importants_setProperty. }
    unfold st', avoidPageBreak.
    destruct (String.eqb (Js.take 3 sel) "div"); [|done].
    destruct nb as [c|]; rewrite !importants_setProperty_ne; done. }
  assert (getPropertyPriority st' fontFamily = EmptyString) as Hpriority.
  { unfold getPropertyPriority. by rewrite Hnone. }
  split; [exact Hpriority|].
  unfold declText. rewrite Hpriority. reflexivity.
Qed.

Lemma font_family_priority_dropped_witness :
  let st := setPropertyWith fontFamily "Arial" (Some "important") emptyStyle in
  cssText st = "font-family: Arial !important;" /\
  exists st',
    tidyRule None None 1 (CSSStyleRule "p" st) = Ok (CSSStyleRule "p" st') /\
    declText st' fontFamily = "font-family: Arial;".
Proof.
  intros st. split; [reflexivity|]. eexists. split; [reflexivity|].
  rewrite (proj2 (font_family_priority_dropped None None 1 "p" st _ eq_refl eq_refl)).
  reflexivity.
Defined.

End RulePassTheorems.

Section BlankOverride.
Import Cssom TidyCss.

Lemma comma_not_space (c : ascii) : Ascii.eqb comma c = true -> Js.isSpace c = false.
Proof. intros Hc%Ascii.eqb_eq. by subst c. Qed.

(** A value of white space only holds one name, the empty one. *)
Lemma parsedFonts_blank (f : string) :
  Js.trim f = EmptyString -> parsedFonts f = EmptyString.
Proof.
  intros Hblank. unfold parsedFonts.
  assert (Js.existsb (Ascii.eqb comma) f = false) as Hcomma.
  { rewrite <- (existsb_trim _ f comma_not_space). by rewrite Hblank. }
  rewrite (split_free _ _ Hcomma). cbn [map Js.join].
  unfold parsedFont. by rewrite Hblank.
Qed.

(** X7.  A font override made of white space only is an override all the
    same: every rule it reaches ends with an empty font family, which
    replaces the one it declared. *)
Theorem blank_override_empties_font_family
    (f : string) (nb : option string) (stylesLength : nat)
    (sel : string) (st st' : CSSStyleDeclaration) :
  Js.truthy f = true ->
  Js.trim f = EmptyString ->
  declares st fontFamily || (stylesLength =? 1) = true ->
  tidyRule (whenTruthy (Some f)) nb stylesLength (CSSStyleRule sel st)
    = Ok (CSSStyleRule sel st') ->
  get st' fontFamily = Some EmptyString /\
  declText st' fontFamily = "font-family: ;".
Proof.
  intros Hf Hblank Hreach Hrule.
  assert (st' = avoidPageBreak nb sel
                  (quoteFonts (replaceFont (Some f) stylesLength st))) as Hst'.
  { cbn [whenTruthy] in Hrule. rewrite Hf in Hrule. unfold tidyRule in Hrule.
    congruence. }
  clear Hrule.
  assert (get st' fontFamily = Some EmptyString) as Hget.
  { rewrite Hst'. rewrite (fontFamily_after_override f nb stylesLength sel st Hf), Hreach.
    by rewrite (parsedFonts_blank f Hblank). }
  split; [exact Hget|].
  assert (importants st' !! fontFamily = None) as Hnone.
  { rewrite Hst'. unfold avoidPageBreak, quoteFonts.
    rewrite (replaceFont_reaches f stylesLength st Hreach).
    rewrite declares_setProperty, Hf, getPropertyValue_setProperty.
    destruct (String.eqb (Js.take 3 sel) "div");
      [destruct nb as [c|]|]; rewrite ?importants_setProperty_ne by done;
      apply importants_setProperty. }
  unfold declText, getPropertyPriority, getPropertyValue.
  unfold get in Hget. by rewrite Hget, Hnone.
Qed.

Lemma blank_override_empties_font_family_witness :
  exists st',
    tidyRule (whenTruthy (Some " ")) None 2
      (CSSStyleRule "p" (setProperty fontFamily "Arial" emptyStyle))
      = Ok (CSSStyleRule "p" st') /\
    cssText st' = "font-family: ;".
Proof.
  eexists. split; [reflexivity|].
  rewrite <- (proj2 (blank_override_empties_font_family " " None 2 "p"
                       (setProperty fontFamily "Arial" emptyStyle) _
                       eq_refl eq_refl eq_refl eq_refl)).
  reflexivity.
Defined.

End BlankOverride.

(** ** The text of a font family *)

Section Escaping.
Import CssEsc CssSyntax TidyCss.

Ltac each_ascii c :=
  destruct c as [[] [] [] [] [] [] [] []].







Lemma parsedFont_shape (font : string) :
  parsedFont font =
    if hasNonAlpha (Js.trim font)
    then cssEsc (Js.trim (Js.removeAll styleClose font))
    else Js.trim font.
Proof. reflexivity. Qed.




(** The escaping of one character is read by a CSS tokenizer from outside
    an escape to outside an escape. *)
Lemma closesAtEnd_escapeChar (c : ascii) (t : string) :
  closesAtEnd false (escapeChar c +:+ t) = closesAtEnd false t.
Proof. each_ascii c; reflexivity. Qed.

Lemma closesAtEnd_escapeChars (s t : string) :
  closesAtEnd false (escapeChars s +:+ t) = closesAtEnd false t.
Proof.
  induction s as [|c s IH]; [done|].
  cbn [escapeChars]. by rewrite append_assoc, closesAtEnd_escapeChar.
Qed.

Lemma isHexUpper_plain (c : ascii) :
  isHexUpper c = true ->
  Ascii.eqb c backslash = false /\ Ascii.eqb c dquote = false /\
  Js.isNewline c = false.
Proof. each_ascii c; vm_compute; intros; repeat split; congruence. Qed.

Lemma isEmpty_append (a t : string) :
  Js.isEmpty t = false -> Js.isEmpty (a +:+ t) = false.
Proof. by destruct a. Qed.

(** A space taken away by the last replacement of cssesc stood outside
    any escape, so the tokenizer reads what is left as it read the
    whole. *)
Lemma closesAtEnd_dropSpaces (s t : string) (slashes : nat)
    (hex : option (nat * nat)) :
  Js.isEmpty t = false ->
  (hex <> None -> slashes = 0) ->
  closesAtEnd (Nat.odd slashes) (dropSpaces slashes hex s +:+ t)
    = closesAtEnd (Nat.odd slashes) (s +:+ t).
Proof.
  intros Ht. revert slashes hex.
  induction s as [|c s IH]; intros slashes hex Hhex; [done|].
  assert (forall tail : string,
            closesAtEnd (Nat.odd slashes) (String c tail) =
              if Nat.odd slashes then closesAtEnd false tail
              else if Ascii.eqb c backslash then closesAtEnd true tail
              else if Ascii.eqb c dquote then Js.isEmpty tail
              else if Js.isNewline c then false
              else closesAtEnd false tail) as Hscan by reflexivity.
  assert (closesAtEnd false (dropSpaces 0 None s +:+ t)
          = closesAtEnd false (s +:+ t)) as IHplain.
  { exact (IH 0 None ltac:(done)). }
  assert (forall h, closesAtEnd false (dropSpaces 0 h s +:+ t)
                    = closesAtEnd false (s +:+ t)) as IHzero.
  { intros h. exact (IH 0 h ltac:(done)). }
  change (String c s +:+ t) with (String c (s +:+ t)).
  cbn [dropSpaces].
  destruct (Ascii.eqb c backslash) eqn:Hbackslash.
  { change (String c (dropSpaces (S slashes) None s) +:+ t)
      with (String c (dropSpaces (S slashes) None s +:+ t)).
    rewrite !Hscan.
    pose proof (IH (S slashes) None ltac:(done)) as IHnext.
    rewrite Nat.odd_succ, <- Nat.negb_odd in IHnext.
    destruct (Nat.odd slashes); exact IHnext. }
  destruct (isHexUpper c) eqn:Hhexc.
  { destruct (isHexUpper_plain c Hhexc) as (_ & Hquote & Hnewline).
    destruct hex as [[pre k]|]; [|destruct slashes as [|pre]];
      match goal with
      | |- context [String c (dropSpaces 0 ?h s) +:+ t] =>
          change (String c (dropSpaces 0 h s) +:+ t)
            with (String c (dropSpaces 0 h s +:+ t))
      end;
      rewrite !Hscan, ?Hbackslash, Hquote, Hnewline, IHzero;
      reflexivity. }
  assert (closesAtEnd (Nat.odd slashes) (String c (dropSpaces 0 None s) +:+ t)
          = closesAtEnd (Nat.odd slashes) (String c (s +:+ t))) as Hkept.
  { change (String c (dropSpaces 0 None s) +:+ t)
      with (String c (dropSpaces 0 None s +:+ t)).
    rewrite !Hscan, IHplain.
    by rewrite (isEmpty_append (dropSpaces 0 None s) t Ht), (isEmpty_append s t Ht). }
  destruct (Ascii.eqb c space) eqn:Hspace; [|exact Hkept].
  destruct hex as [[pre k]|]; [|exact Hkept].
  destruct ((k <=? 6) && Nat.even pre && negb _); [|exact Hkept].
  rewrite (Hhex ltac:(done)). change (Nat.odd 0) with false. rewrite IHplain.
  apply Ascii.eqb_eq in Hspace as ->. reflexivity.
Qed.

Lemma cssEsc_closed (s : string) : isCssString (cssEsc s) = true.
Proof.
  unfold cssEsc. cbn [String.append isCssString]. rewrite Ascii.eqb_refl. cbn [andb].
  rewrite (closesAtEnd_dropSpaces _ _ 0 None) by done.
  by rewrite closesAtEnd_escapeChars.
Qed.

(** X9.  Every font name comes out either bare, made of letters and hyphens
    only, or as one closed CSS string: between its two quotes no double
    quote stands unescaped, no line break occurs, and the closing quote is
    not escaped. *)
Theorem font_name_is_bare_or_closed_string (font : string) :
  if hasNonAlpha (Js.trim font)
  then isCssString (parsedFont font) = true
  else Js.forallb isAlphaHyphen (parsedFont font) = true.
Proof.
  rewrite parsedFont_shape.
  destruct (hasNonAlpha (Js.trim font)) eqn:Hplain; [apply cssEsc_closed|].
  rewrite hasNonAlpha_forallb in Hplain. by apply negb_false_iff in Hplain.
Qed.

Lemma includes_cons (p : string) (c : ascii) (s : string) :
  Js.includes p (String c s) = Js.startsWith p (String c s) || Js.includes p s.
Proof. reflexivity. Qed.

Lemma startsWith_cons (a : ascii) (q : string) (c : ascii) (s : string) :
  Js.startsWith (String a q) (String c s) = Ascii.eqb a c && Js.startsWith q s.
Proof. reflexivity. Qed.

Lemma inClose_neq (a c : ascii) :
  inClose a = true -> inClose c = false -> Ascii.eqb a c = false.
Proof.
  intros Ha Hc. destruct (Ascii.eqb a c) eqn:Heq; [|done].
  apply Ascii.eqb_eq in Heq as ->. congruence.
Qed.

(** What follows a character foreign to the sequence cannot complete a
    match begun before it. *)
Lemma startsWith_foreign (q x : string) (c : ascii) (t : string) :
  Js.forallb inClose q = true -> inClose c = false ->
  Js.startsWith q (x +:+ String c t) = Js.startsWith q x || Js.isEmpty q.
Proof.
  intros Hq Hc. revert q Hq. induction x as [|d x IH]; intros [|a q] Hq; try done.
  - cbn [String.append Js.isEmpty orb]. rewrite startsWith_cons.
    cbn [Js.forallb] in Hq. apply andb_true_iff in Hq as [Ha _].
    by rewrite (inClose_neq a c Ha Hc).
  - change (String d x +:+ String c t) with (String d (x +:+ String c t)).
    rewrite !startsWith_cons. cbn [Js.forallb] in Hq.
    apply andb_true_iff in Hq as [_ Hq]. rewrite (IH q Hq).
    cbn [Js.isEmpty]. rewrite orb_false_r.
    destruct q as [|b q]; cbn [Js.isEmpty]; [|by rewrite orb_false_r].
    cbn [Js.startsWith orb]. reflexivity.
Qed.

Lemma includes_foreign (x : string) (c : ascii) (t : string) :
  inClose c = false ->
  Js.includes styleClose (x +:+ String c t)
    = Js.includes styleClose x || Js.includes styleClose t.
Proof.
  intros Hc. induction x as [|d x IH].
  - cbn [String.append]. rewrite includes_cons.
    unfold styleClose at 1. rewrite startsWith_cons.
    by rewrite (inClose_neq "<" c eq_refl Hc).
  - change (String d x +:+ String c t) with (String d (x +:+ String c t)).
    rewrite !includes_cons, IH.
    change (String d (x +:+ String c t)) with (String d x +:+ String c t).
    rewrite (startsWith_foreign styleClose (String d x) c t eq_refl Hc).
    cbn [Js.isEmpty styleClose]. by rewrite orb_false_r, orb_assoc.
Qed.

Lemma includes_foreign_end (x : string) (c : ascii) :
  inClose c = false ->
  Js.includes styleClose (x +:+ String c EmptyString) = Js.includes styleClose x.
Proof. intros Hc. rewrite (includes_foreign x c EmptyString Hc). by rewrite orb_false_r. Qed.

Lemma includes_foreign_start (c : ascii) (t : string) :
  inClose c = false ->
  Js.includes styleClose (String c t) = Js.includes styleClose t.
Proof. intros Hc. exact (includes_foreign EmptyString c t Hc). Qed.

(** The escaping of a character of the sequence is the character; that
    of any other character holds none of the sequence. *)
Lemma escapeChar_close (c : ascii) :
  inClose c = true -> escapeChar c = String c EmptyString.
Proof. each_ascii c; vm_compute; congruence. Qed.

Lemma escapeChar_foreign (c : ascii) :
  inClose c = false ->
  exists d block, escapeChar c = String d block /\
                  Js.forallb (fun x => negb (inClose x)) (String d block) = true.
Proof. each_ascii c; vm_compute; intros; try congruence; by eexists _, _. Qed.

Lemma includes_foreign_block (block t : string) :
  Js.forallb (fun x => negb (inClose x)) block = true ->
  Js.includes styleClose (block +:+ t) = Js.includes styleClose t.
Proof.
  induction block as [|d block IH]; [done|].
  cbn [Js.forallb]. intros [Hd%negb_true_iff Hblock]%andb_true_iff.
  change (String d block +:+ t) with (String d (block +:+ t)).
  by rewrite (includes_foreign_start d _ Hd), IH.
Qed.

Lemma startsWith_foreign_block (q : string) (a d : ascii) (block t : string) :
  inClose a = true -> inClose d = false ->
  Js.startsWith (String a q) (String d block +:+ t) = false.
Proof.
  intros Ha Hd. change (String d block +:+ t) with (String d (block +:+ t)).
  by rewrite startsWith_cons, (inClose_neq a d Ha Hd).
Qed.

Lemma startsWith_escapeChars (q s : string) :
  Js.forallb inClose q = true ->
  Js.startsWith q (escapeChars s) = Js.startsWith q s.
Proof.
  revert q. induction s as [|c s IH]; intros [|a q] Hq; try done.
  cbn [Js.forallb] in Hq. apply andb_true_iff in Hq as [Ha Hq].
  cbn [escapeChars]. destruct (inClose c) eqn:Hc.
  - rewrite (escapeChar_close c Hc). cbn [String.append].
    by rewrite !startsWith_cons, (IH q Hq).
  - destruct (escapeChar_foreign c Hc) as (d & block & -> & Hblock).
    cbn [Js.forallb] in Hblock. apply andb_true_iff in Hblock as [Hd%negb_true_iff _].
    rewrite (startsWith_foreign_block q a d block _ Ha Hd).
    by rewrite startsWith_cons, (inClose_neq a c Ha Hc).
Qed.

(** Escaping neither makes nor breaks an occurrence of the sequence. *)
Lemma includes_escapeChars (s : string) :
  Js.includes styleClose (escapeChars s) = Js.includes styleClose s.
Proof.
  induction s as [|c s IH]; [done|].
  cbn [escapeChars]. destruct (inClose c) eqn:Hc.
  - rewrite (escapeChar_close c Hc). cbn [String.append].
    rewrite !includes_cons, IH. f_equal.
    change styleClose with (String "<" "/style>").
    by rewrite !startsWith_cons, (startsWith_escapeChars "/style>" s eq_refl).
  - destruct (escapeChar_foreign c Hc) as (d & block & -> & Hblock).
    rewrite (includes_foreign_block _ _ Hblock), IH.
    by rewrite (includes_foreign_start c s Hc).
Qed.

Lemma isHexUpper_foreign (c : ascii) : isHexUpper c = true -> inClose c = false.
Proof. each_ascii c; vm_compute; congruence. Qed.

Lemma isSpace_foreign (c : ascii) : Js.isSpace c = true -> inClose c = false.
Proof. each_ascii c; vm_compute; congruence. Qed.

Lemma startsWith_dropSpaces (q x : string) (slashes : nat) :
  Js.forallb inClose q = true ->
  Js.startsWith q (dropSpaces slashes None x) = Js.startsWith q x.
Proof.
  revert q slashes. induction x as [|c x IH]; intros [|a q] slashes Hq; try done.
  cbn [Js.forallb] in Hq. apply andb_true_iff in Hq as [Ha Hq].
  cbn [dropSpaces].
  destruct (Ascii.eqb c backslash).
  { by rewrite !startsWith_cons, (IH q _ Hq). }
  destruct (isHexUpper c) eqn:Hhex.
  { apply isHexUpper_foreign in Hhex.
    destruct slashes as [|pre]; rewrite !startsWith_cons, (inClose_neq a c Ha Hhex);
      reflexivity. }
  destruct (Ascii.eqb c space); by rewrite !startsWith_cons, (IH q _ Hq).
Qed.

(** Nor does the removal of the spaces that end an escape. *)
Lemma includes_dropSpaces (x : string) (slashes : nat) (hex : option (nat * nat)) :
  Js.includes styleClose (dropSpaces slashes hex x) = Js.includes styleClose x.
Proof.
  revert slashes hex. induction x as [|c x IH]; intros slashes hex; [done|].
  assert (forall k,
            Js.includes styleClose (String c (dropSpaces k None x))
              = Js.includes styleClose (String c x)) as Hkept.
  { intros k. rewrite !includes_cons, IH. f_equal.
    change styleClose with (String "<" "/style>").
    by rewrite !startsWith_cons, (startsWith_dropSpaces "/style>" x k eq_refl). }
  cbn [dropSpaces].
  destruct (Ascii.eqb c backslash); [apply Hkept|].
  destruct (isHexUpper c) eqn:Hhex.
  { apply isHexUpper_foreign in Hhex.
    destruct hex as [[pre k]|]; [|destruct slashes as [|pre]];
      by rewrite !(includes_foreign_start c _ Hhex), IH. }
  destruct (Ascii.eqb c space) eqn:Hspace; [|apply Hkept].
  destruct hex as [[pre k]|]; [|apply Hkept].
  destruct ((k <=? 6) && Nat.even pre && negb _); [|apply Hkept].
  apply Ascii.eqb_eq in Hspace as ->.
  by rewrite IH, (includes_foreign_start space x eq_refl).
Qed.

Lemma includes_cssEsc (s : string) :
  Js.includes styleClose (cssEsc s) = Js.includes styleClose s.
Proof.
  unfold cssEsc. cbn [String.append].
  rewrite (includes_foreign_start dquote _ eq_refl).
  rewrite (includes_foreign_end _ dquote eq_refl).
  by rewrite includes_dropSpaces, includes_escapeChars.
Qed.

Lemma includes_trimStart (s : string) :
  Js.includes styleClose (Js.trimStart s) = Js.includes styleClose s.
Proof.
  induction s as [|c s IH]; [done|]. cbn [Js.trimStart].
  destruct (Js.isSpace c) eqn:Hc; [|done].
  by rewrite IH, (includes_foreign_start c s (isSpace_foreign c Hc)).
Qed.

Lemma startsWith_trimEnd (q s : string) :
  Js.forallb inClose q = true ->
  Js.startsWith q (Js.trimEnd s) = Js.startsWith q s.
Proof.
  revert q. induction s as [|c s IH]; intros [|a q] Hq; try done.
  cbn [Js.forallb] in Hq. apply andb_true_iff in Hq as [Ha Hq].
  cbn [Js.trimEnd].
  destruct (Js.isSpace c && Js.isEmpty (Js.trimEnd s)) eqn:Hdrop.
  - apply andb_true_iff in Hdrop as [Hc _].
    by rewrite startsWith_cons, (inClose_neq a c Ha (isSpace_foreign c Hc)).
  - by rewrite !startsWith_cons, (IH q Hq).
Qed.

Lemma includes_trimEnd (s : string) :
  Js.includes styleClose (Js.trimEnd s) = Js.includes styleClose s.
Proof.
  induction s as [|c s IH]; [done|]. cbn [Js.trimEnd].
  destruct (Js.isSpace c && Js.isEmpty (Js.trimEnd s)) eqn:Hdrop.
  - apply andb_true_iff in Hdrop as [Hc Hempty].
    rewrite (includes_foreign_start c s (isSpace_foreign c Hc)), <- IH.
    by destruct (Js.trimEnd s).
  - rewrite !includes_cons, IH. f_equal.
    change styleClose with (String "<" "/style>").
    by rewrite !startsWith_cons, (startsWith_trimEnd "/style>" s eq_refl).
Qed.

Lemma includes_trim (s : string) :
  Js.includes styleClose (Js.trim s) = Js.includes styleClose s.
Proof. unfold Js.trim. by rewrite includes_trimEnd, includes_trimStart. Qed.

Lemma alpha_foreign (c : ascii) : isAlphaHyphen c = true -> Ascii.eqb "<" c = false.
Proof. each_ascii c; vm_compute; congruence. Qed.

(** A bare name holds no tag at all. *)
Lemma includes_bare (s : string) :
  Js.forallb isAlphaHyphen s = true -> Js.includes styleClose s = false.
Proof.
  induction s as [|c s IH]; [done|].
  cbn [Js.forallb]. intros [Hc Hs]%andb_true_iff.
  rewrite includes_cons, (IH Hs). change styleClose with (String "<" "/style>").
  by rewrite startsWith_cons, (alpha_foreign c Hc).
Qed.

Lemma includes_parsedFont (font : string) :
  Js.includes styleClose (Js.removeAll styleClose font) = false ->
  Js.includes styleClose (parsedFont font) = false.
Proof.
  intros Hstripped. rewrite parsedFont_shape.
  destruct (hasNonAlpha (Js.trim font)) eqn:Hplain.
  - by rewrite includes_cssEsc, includes_trim.
  - apply includes_bare. rewrite hasNonAlpha_forallb in Hplain.
    by apply negb_false_iff in Hplain.
Qed.

Lemma includes_join (names : list string) :
  Forall (fun name => Js.includes styleClose name = false) names ->
  Js.includes styleClose (Js.join ", " names) = false.
Proof.
  induction 1 as [|name names Hname _ IH]; [done|].
  destruct names as [|next names]; [done|].
  change (Js.join ", " (name :: next :: names))
    with (name +:+ String "," (String " " (Js.join ", " (next :: names)))).
  rewrite (includes_foreign name "," _ eq_refl), Hname.
  by rewrite (includes_foreign_start " " _ eq_refl).
Qed.

(** X10.  The style-closing sequence stays out of the font family wherever
    one pass of the removal is enough: if no name of the value still holds
    the sequence once its occurrences have been taken out from left to
    right, the value written back does not hold it either; escaping and
    quoting neither make nor complete one. *)
Theorem style_close_absent_when_one_pass_suffices (value : string) :
  Forall (fun font =>
            Js.includes styleClose (Js.removeAll styleClose font) = false)
         (Js.split comma value) ->
  Js.includes styleClose (parsedFonts value) = false.
Proof.
  intros Hfonts. unfold parsedFonts. apply includes_join, Forall_forall.
  intros name (font & <- & Hfont)%list_elem_of_In%in_map_iff.
  apply includes_parsedFont.
  rewrite Forall_forall in Hfonts. by apply Hfonts, list_elem_of_In.
Qed.

Lemma style_close_absent_when_one_pass_suffices_witness :
  parsedFonts "Arial, </style></style><script>x, </STYLE>"
    = "Arial, " +:+ dq +:+ "<script>x" +:+ dq +:+ ", " +:+ dq +:+ "</STYLE>" +:+ dq /\
  Js.includes styleClose (parsedFonts "Arial, </style></style><script>x, </STYLE>")
    = false.
Proof.
  split; [vm_compute; reflexivity|].
  exact (style_close_absent_when_one_pass_suffices
           "Arial, </style></style><script>x, </STYLE>"
           ltac:(vm_compute; repeat constructor)).
Defined.

Lemma removeAllFrom_absent (p s : string) :
  Js.includes p s = false -> Js.removeAllFrom p 0 s = s.
Proof.
  induction s as [|c s IH]; [done|].
  rewrite includes_cons. intros [Hhere Hlater]%orb_false_iff.
  cbn [Js.removeAllFrom]. by rewrite Hhere, (IH Hlater).
Qed.

(** X11.  The removal is of the sequence as it is spelt, in lower case: a
    name that does not hold it is quoted as it stands, nothing taken out of
    it; a closing tag spelt otherwise stays in the name. *)
Theorem name_without_style_close_is_not_stripped (font : string) :
  Js.includes styleClose font = false ->
  Js.removeAll styleClose font = font /\
  parsedFont font =
    if hasNonAlpha (Js.trim font) then cssEsc (Js.trim font) else Js.trim font.
Proof.
  intros Habsent.
  assert (Js.removeAll styleClose font = font) as Hkept
    by (by apply removeAllFrom_absent).
  split; [exact Hkept|]. by rewrite parsedFont_shape, Hkept.
Qed.

Lemma name_without_style_close_is_not_stripped_witness :
  parsedFont " </STYLE><b> " = dq +:+ "</STYLE><b>" +:+ dq.
Proof.
  rewrite (proj2 (name_without_style_close_is_not_stripped " </STYLE><b> " eq_refl)).
  vm_compute. reflexivity.
Defined.

End Escaping.

(** ** Gathering the style elements *)

Section BlankLines.
Import TidyCss Lines.

(** White space read at the start of a line is held back. *)
Lemma collapseFrom_pending (p q t : string) :
  Js.forallb isBlank p = true ->
  collapseFrom true q (p +:+ t) = collapseFrom true (q +:+ p) t.
Proof.
  revert q. induction p as [|c p IH]; intros q.
  { by rewrite append_empty. }
  cbn [Js.forallb]. intros [Hc Hp]%andb_true_iff.
  apply andb_true_iff in Hc as [Hspace Hnewline%negb_true_iff].
  change (String c p +:+ t) with (String c (p +:+ t)).
  cbn [collapseFrom]. rewrite Hnewline, Hspace, (IH _ Hp).
  by rewrite append_assoc.
Qed.

Lemma collapseFrom_twice (s : string) :
  (forall p, Js.forallb isBlank p = true ->
             collapseFrom true EmptyString (collapseFrom true p s)
               = collapseFrom true p s) /\
  collapseFrom false EmptyString (collapseFrom false EmptyString s)
    = collapseFrom false EmptyString s.
Proof.
  induction s as [|c s [IHstart IHinside]].
  { split; [|done]. intros p Hp. cbn [collapseFrom].
    rewrite <- (append_empty p) at 1. by rewrite collapseFrom_pending. }
  split.
  - intros p Hp. cbn [collapseFrom].
    destruct (Js.isNewline c) eqn:Hnewline; [by apply IHstart|].
    destruct (Js.isSpace c) eqn:Hspace.
    + apply IHstart. rewrite forallb_append, Hp. cbn [Js.forallb].
      unfold isBlank. by rewrite Hspace, Hnewline.
    + rewrite collapseFrom_pending by done. cbn [String.append collapseFrom].
      by rewrite Hnewline, Hspace, IHinside.
  - cbn [collapseFrom]. f_equal.
    destruct (Js.isNewline c); [by apply IHstart | exact IHinside].
Qed.

Lemma blankLineFrom_pending (p : string) (c : ascii) (t : string) :
  Js.forallb isBlank p = true -> Js.isSpace c = false ->
  blankLineFrom (p +:+ String c t) = false.
Proof.
  intros Hp Hc. induction p as [|d p IH].
  - cbn [String.append blankLineFrom]. rewrite Hc.
    destruct (Js.isNewline c) eqn:Hnewline; [|done].
    apply isNewline_isSpace in Hnewline. congruence.
  - cbn [Js.forallb] in Hp. apply andb_true_iff in Hp as [Hd Hp].
    apply andb_true_iff in Hd as [_ Hd%negb_true_iff].
    change (String d p +:+ String c t) with (String d (p +:+ String c t)).
    cbn [blankLineFrom]. rewrite Hd, (IH Hp). by rewrite andb_false_r.
Qed.

Lemma hasBlankLine_pending (p t : string) :
  Js.forallb isBlank p = true ->
  hasBlankLine false (p +:+ t) = hasBlankLine false t.
Proof.
  induction p as [|d p IH]; [done|].
  cbn [Js.forallb]. intros [Hd Hp]%andb_true_iff.
  apply andb_true_iff in Hd as [_ Hd%negb_true_iff].
  change (String d p +:+ t) with (String d (p +:+ t)).
  cbn [hasBlankLine andb orb]. rewrite Hd. by apply IH.
Qed.

Lemma hasBlankLine_start_pending (p : string) (c : ascii) (t : string) :
  Js.forallb isBlank p = true -> Js.isSpace c = false ->
  hasBlankLine true (p +:+ String c t) = hasBlankLine false t.
Proof.
  intros Hp Hc.
  assert (Js.isNewline c = false) as Hnewline.
  { destruct (Js.isNewline c) eqn:Hn; [|done].
    apply isNewline_isSpace in Hn. congruence. }
  pose proof (blankLineFrom_pending p c t Hp Hc) as Hfrom.
  destruct p as [|d p].
  - cbn [String.append] in *. cbn [hasBlankLine andb]. by rewrite Hfrom, Hnewline.
  - change (String d p +:+ String c t) with (String d (p +:+ String c t)) in *.
    cbn [hasBlankLine andb]. rewrite Hfrom. cbn [orb].
    cbn [Js.forallb] in Hp. apply andb_true_iff in Hp as [Hd Hp].
    apply andb_true_iff in Hd as [_ Hd%negb_true_iff].
    rewrite Hd, hasBlankLine_pending by done.
    cbn [hasBlankLine andb orb]. by rewrite Hnewline.
Qed.

Lemma hasBlankLine_blank (p : string) :
  Js.forallb isBlank p = true -> hasBlankLine true p = false.
Proof.
  intros Hp. destruct p as [|d p]; [done|].
  assert (blankLineFrom (String d p) = false) as Hfrom.
  { induction (String d p) as [|e q IH]; [done|].
    cbn [Js.forallb] in Hp. apply andb_true_iff in Hp as [He Hq].
    apply andb_true_iff in He as [_ He%negb_true_iff].
    cbn [blankLineFrom]. rewrite He, (IH Hq). by rewrite andb_false_r. }
  cbn [hasBlankLine andb]. rewrite Hfrom. cbn [orb].
  cbn [Js.forallb] in Hp. apply andb_true_iff in Hp as [Hd Hp].
  apply andb_true_iff in Hd as [_ Hd%negb_true_iff]. rewrite Hd.
  rewrite <- (append_empty p). by rewrite hasBlankLine_pending.
Qed.

Lemma collapseFrom_no_blank_line (s : string) :
  (forall p, Js.forallb isBlank p = true ->
             hasBlankLine true (collapseFrom true p s) = false) /\
  hasBlankLine false (collapseFrom false EmptyString s) = false.
Proof.
  induction s as [|c s [IHstart IHinside]].
  { split; [|done]. intros p Hp. by apply hasBlankLine_blank. }
  split.
  - intros p Hp. cbn [collapseFrom].
    destruct (Js.isNewline c) eqn:Hnewline; [by apply IHstart|].
    destruct (Js.isSpace c) eqn:Hspace.
    + apply IHstart. rewrite forallb_append, Hp. cbn [Js.forallb].
      unfold isBlank. by rewrite Hspace, Hnewline.
    + by rewrite hasBlankLine_start_pending.
  - cbn [collapseFrom hasBlankLine andb orb].
    destruct (Js.isNewline c); [by apply IHstart | exact IHinside].
Qed.

Lemma withoutSpaces_append (a b : string) :
  Spec.withoutSpaces (a +:+ b) = Spec.withoutSpaces a +:+ Spec.withoutSpaces b.
Proof.
  induction a as [|c a IH]; [done|].
  change (String c a +:+ b) with (String c (a +:+ b)).
  cbn [Spec.withoutSpaces]. rewrite IH. by destruct (Js.isSpace c).
Qed.

Lemma withoutSpaces_blank (p : string) :
  Js.forallb isBlank p = true -> Spec.withoutSpaces p = EmptyString.
Proof.
  induction p as [|c p IH]; [done|].
  cbn [Js.forallb]. intros [Hc Hp]%andb_true_iff.
  apply andb_true_iff in Hc as [Hc _].
  cbn [Spec.withoutSpaces]. rewrite Hc. by apply IH.
Qed.

Lemma collapseFrom_content (s : string) :
  (forall p, Js.forallb isBlank p = true ->
             Spec.withoutSpaces (collapseFrom true p s) = Spec.withoutSpaces s) /\
  Spec.withoutSpaces (collapseFrom false EmptyString s) = Spec.withoutSpaces s.
Proof.
  induction s as [|c s [IHstart IHinside]].
  { split; [|done]. intros p Hp. by apply withoutSpaces_blank. }
  split.
  - intros p Hp. cbn [collapseFrom Spec.withoutSpaces].
    destruct (Js.isNewline c) eqn:Hnewline.
    { rewrite (isNewline_isSpace c Hnewline). by apply IHstart. }
    destruct (Js.isSpace c) eqn:Hspace.
    + apply IHstart. rewrite forallb_append, Hp. cbn [Js.forallb].
      unfold isBlank. by rewrite Hspace, Hnewline.
    + rewrite withoutSpaces_append, (withoutSpaces_blank p Hp).
      cbn [String.append Spec.withoutSpaces]. by rewrite Hspace, IHinside.
  - cbn [collapseFrom Spec.withoutSpaces].
    destruct (Js.isSpace c) eqn:Hspace.
    + destruct (Js.isNewline c); [by apply IHstart | exact IHinside].
    + f_equal. destruct (Js.isNewline c); [by apply IHstart | exact IHinside].
Qed.

(** X12.  One pass of the blank line removal is enough: the text it gives
    has no line made of white space only, and a second pass leaves it as it
    is. *)
Theorem blank_lines_removed_in_one_pass (s : string) :
  hasBlankLine true (collapseBlankLines s) = false /\
  collapseBlankLines (collapseBlankLines s) = collapseBlankLines s.
Proof.
  split.
  - by apply collapseFrom_no_blank_line.
  - by apply collapseFrom_twice.
Qed.

(** X13.  The blank line removal takes away white space and nothing else:
    the other characters of the text are all kept, in their order. *)
Theorem blank_line_removal_keeps_content (s : string) :
  Spec.withoutSpaces (collapseBlankLines s) = Spec.withoutSpaces s.
Proof. by apply collapseFrom_content. Qed.

Lemma blankLineFrom_newline (p : string) (c : ascii) (t : string) :
  Js.forallb isBlank p = true -> Js.isNewline c = true ->
  blankLineFrom (p +:+ String c t) = true.
Proof.
  intros Hp Hc. induction p as [|d p IH].
  - cbn [String.append blankLineFrom]. by rewrite Hc.
  - cbn [Js.forallb] in Hp. apply andb_true_iff in Hp as [Hd Hp].
    apply andb_true_iff in Hd as [Hd _].
    change (String d p +:+ String c t) with (String d (p +:+ String c t)).
    cbn [blankLineFrom]. rewrite Hd, (IH Hp). by rewrite orb_true_r.
Qed.

Lemma hasBlankLine_start (s : string) :
  blankLineFrom s = true -> hasBlankLine true s = true.
Proof. destruct s as [|c s]; [done|]. cbn [hasBlankLine andb]. by intros ->. Qed.

Lemma collapseFrom_fixed (s : string) :
  (forall p, Js.forallb isBlank p = true ->
             hasBlankLine true (p +:+ s) = false ->
             collapseFrom true p s = p +:+ s) /\
  (hasBlankLine false s = false -> collapseFrom false EmptyString s = s).
Proof.
  induction s as [|c s [IHstart IHinside]].
  { split; [|done]. intros p _ _. by rewrite append_empty. }
  split.
  - intros p Hp Hnone. cbn [collapseFrom].
    destruct (Js.isNewline c) eqn:Hnewline.
    { rewrite hasBlankLine_start in Hnone; [done|].
      by apply blankLineFrom_newline. }
    destruct (Js.isSpace c) eqn:Hspace.
    + rewrite IHstart.
      * by rewrite append_assoc.
      * rewrite forallb_append, Hp. cbn [Js.forallb].
        unfold isBlank. by rewrite Hspace, Hnewline.
      * by rewrite append_assoc.
    + rewrite hasBlankLine_start_pending in Hnone by done.
      by rewrite (IHinside Hnone).
  - cbn [collapseFrom hasBlankLine andb orb]. intros Hnone. f_equal.
    destruct (Js.isNewline c); [by apply (IHstart EmptyString) | by apply IHinside].
Qed.

(** X14.  A text that has no line made of white space only goes through the
    blank line removal unchanged: indentation and line breaks of the other
    lines are kept. *)
Theorem text_without_blank_lines_unchanged (s : string) :
  hasBlankLine true s = false -> collapseBlankLines s = s.
Proof. intros Hnone. by apply (proj1 (collapseFrom_fixed s) EmptyString). Qed.

Lemma text_without_blank_lines_unchanged_witness :
  collapseBlankLines ("<title>t</title>" +:+ nl +:+ "  <meta>  " +:+ nl)
    = "<title>t</title>" +:+ nl +:+ "  <meta>  " +:+ nl.
Proof.
  exact (text_without_blank_lines_unchanged
           ("<title>t</title>" +:+ nl +:+ "  <meta>  " +:+ nl) eq_refl).
Defined.

End BlankLines.

Section Combined.
Import Dom TidyCss.

Lemma normalizeNewlines_without_CR (s : string) :
  Js.existsb (Ascii.eqb CR) s = false -> normalizeNewlines s = s.
Proof.
  induction s as [|c s IH]; [done|].
  cbn [Js.existsb normalizeNewlines]. intros [Hc Hs]%orb_false_iff.
  rewrite Ascii.eqb_sym in Hc. by rewrite Hc, (IH Hs).
Qed.

(** The text of a style element is the text it was given, line breaks
    normalised. *)
Lemma innerHTML_setStyleInnerHTML (s : string) :
  innerHTML "style" (setStyleInnerHTML s) = normalizeNewlines s.
Proof.
  unfold setStyleInnerHTML.
  destruct (normalizeNewlines s) as [|c t]; reflexivity.
Qed.

Lemma concat_empty_cons (x : string) (xs : list string) :
  String.concat EmptyString (x :: xs) = x +:+ String.concat EmptyString xs.
Proof. destruct xs as [|y ys]; cbn [String.concat]; [by rewrite append_empty | done]. Qed.

Lemma combine_from (styles : list Node) (acc : string) :
  Js.existsb (Ascii.eqb CR) acc = false ->
  Forall (fun element => Js.existsb (Ascii.eqb CR) (innerHTMLOf element) = false)
         styles ->
  fold_left
    (fun acc element =>
       innerHTML "style" (setStyleInnerHTML (acc +:+ innerHTMLOf element)))
    styles acc
  = acc +:+ String.concat EmptyString (map innerHTMLOf styles).
Proof.
  intros Hacc Hstyles. revert acc Hacc.
  induction Hstyles as [|element styles Helement _ IH]; intros acc Hacc.
  { cbn. by rewrite append_empty. }
  cbn [fold_left map]. rewrite concat_empty_cons, innerHTML_setStyleInnerHTML.
  assert (Js.existsb (Ascii.eqb CR) (acc +:+ innerHTMLOf element) = false) as Hboth.
  { by rewrite existsb_append, Hacc, Helement. }
  rewrite (normalizeNewlines_without_CR _ Hboth), (IH _ Hboth).
  by rewrite append_assoc.
Qed.

(** X15.  The style elements are merged by joining their texts end to end,
    in document order, with nothing put between them. (The parser leaves no
    carriage return in a text.) *)
Theorem combined_style_is_concatenation (styles : list Node) :
  Forall (fun element => Js.existsb (Ascii.eqb CR) (innerHTMLOf element) = false)
         styles ->
  combine styles = String.concat EmptyString (map innerHTMLOf styles).
Proof. intros Hstyles. unfold combine. by rewrite combine_from. Qed.

Lemma combined_style_is_concatenation_witness :
  combine [styleElement [Text "p{color:red}"]; styleElement [];
           styleElement [Text ("/* c */" +:+ nl +:+ "div{}")]]
    = "p{color:red}/* c */" +:+ nl +:+ "div{}".
Proof.
  exact (combined_style_is_concatenation
           [styleElement [Text "p{color:red}"]; styleElement [];
            styleElement [Text ("/* c */" +:+ nl +:+ "div{}")]]
           ltac:(repeat constructor)).
Defined.

End Combined.

(** ** More on the whole transform *)

Section HeadFacts.
Import Dom.

(** Removing the style elements keeps the head, without those it held. *)
Lemma headOf_removeStyles (l ch : list Node) :
  headOf l = Some ch ->
  headOf (flat_map removeStyles l) = Some (flat_map removeStyles ch).
Proof.
  induction l as [|n l IH]; [done|].
  destruct n as [d|d|tag attrs kids]; cbn [headOf flat_map removeStyles app];
    [exact IH..|].
  destruct (String.eqb tag "head") eqn:Hhead.
  - intros [= <-].
    destruct (String.eqb tag "style") eqn:Hstyle.
    { apply String.eqb_eq in Hhead, Hstyle. congruence. }
    cbn [app headOf]. by rewrite Hhead.
  - intros Hrest. destruct (String.eqb tag "style"); cbn [app headOf].
    + by apply IH.
    + rewrite Hhead. by apply IH.
Qed.

(** A rewrite of the head succeeds where there is a head, and the head is
    then the rewritten one. *)
Lemma withHead_head (f : list Node -> list Node) (l ch : list Node) :
  headOf l = Some ch ->
  exists l', withHead f l = Ok l' /\ headOf l' = Some (f ch).
Proof.
  induction l as [|n l IH]; [done|].
  destruct n as [d|d|tag attrs kids]; cbn [headOf withHead].
  - intros (l' & -> & Hhead)%IH. by eexists.
  - intros (l' & -> & Hhead)%IH. by eexists.
  - destruct (String.eqb tag "head") eqn:Htag.
    + intros [= <-]. eexists. split; [done|]. cbn [headOf]. by rewrite Htag.
    + intros (l' & -> & Hhead)%IH. eexists. split; [done|].
      cbn [headOf]. by rewrite Htag.
Qed.

(** A head in a tree without style elements holds none. *)
Lemma headOf_without_styles (l ch : list Node) :
  headOf l = Some ch ->
  flat_map styleElements l = [] ->
  flat_map styleElements ch = [].
Proof.
  induction l as [|n l IH]; [done|].
  cbn [flat_map]. intros Hhead [Hn Hl]%app_eq_nil.
  destruct n as [d|d|tag attrs kids]; cbn [headOf] in Hhead; [by apply IH..|].
  destruct (String.eqb tag "head"); [|by apply IH].
  injection Hhead as <-. cbn [styleElements] in Hn.
  by apply app_eq_nil in Hn as [_ Hn].
Qed.

(** A style element appended to the head of a tree that had none, and
    removed again: the tree is as it was. *)
Lemma removeStyles_appended (content : list Node) (l l' : list Node) :
  flat_map styleElements l = [] ->
  withHead (fun ch => ch ++ [styleElement content])%list l = Ok l' ->
  flat_map removeStyles l' = l.
Proof.
  revert l'. induction l as [|n l IH]; intros l'; [done|].
  cbn [flat_map]. intros [Hn Hl]%app_eq_nil.
  assert (forall rest,
            bindR (withHead (fun ch => ch ++ [styleElement content])%list l)
                  (fun rest' => Ok (n :: rest')) = Ok rest ->
            flat_map removeStyles rest = n :: l) as Hskip.
  { intros rest.
    destruct (withHead _ l) as [rest'|] eqn:Hrest; [|done].
    cbn [bindR]. intros [= <-]. cbn [flat_map].
    by rewrite (removeStyles_without_styles n Hn), (IH rest' Hl eq_refl). }
  destruct n as [d|d|tag attrs kids]; cbn [withHead]; [apply Hskip..|].
  destruct (String.eqb tag "head") eqn:Htag; [|apply Hskip].
  intros [= <-]. cbn [flat_map removeStyles].
  cbn [styleElements] in Hn.
  destruct (String.eqb tag "style") eqn:Hstyle; [done|].
  cbn [app] in Hn.
  rewrite flat_map_app. cbn [flat_map removeStyles styleElement String.eqb Ascii.eqb].
  rewrite (removeStyles_list_without_styles kids Hn).
  rewrite (removeStyles_list_without_styles l Hl).
  cbn. by rewrite !app_nil_r.
Qed.

End HeadFacts.

Section TransformOutcome.
Import Cssom Dom TidyCss Rules.
Context `{Libraries}.

(** The steps of [tidyCss] after the style elements have been gathered,
    for a tree that has a head. *)
Lemma tidyCssDom_tail (doc : Document) (nf nb : option string) (k : nat)
    (text : string) (children1 head1 : list Node) :
  headOf children1 = Some head1 ->
  let r :=
    bindR
      (withHead (fun ch => parseHeadFragment (collapseBlankLines (innerHTML "head" ch)))
                (flat_map removeStyles children1))
      (fun children3 =>
    bindR (CSSOM_parse text) (fun cssRules =>
    bindR (tidyRules nf nb k cssRules) (fun cssRules' =>
    bindR (withHead
             (fun ch => ch ++ [styleElement
                                 (setStyleInnerHTML
                                    (cssCleaner_minify (Cssom.toString cssRules')))])%list
             children3)
      (fun children4 => Ok (mkDocument (doctype doc) (htmlAttrs doc) children4))))) in
  match CSSOM_parse text with
  | Err e => r = Err e
  | Ok rules =>
      if forallb isStyleRule rules then exists out, r = Ok out else r = Err TypeError
  end.
Proof.
  intros Hhead1 r. subst r.
  destruct (withHead_head
              (fun ch => parseHeadFragment (collapseBlankLines (innerHTML "head" ch)))
              _ _ (headOf_removeStyles _ _ Hhead1))
    as (children3 & -> & Hhead3).
  cbn [bindR].
  destruct (CSSOM_parse text) as [rules|e]; [|done]. cbn [bindR].
  pose proof (tidyRules_ok_iff nf nb k rules) as Hok.
  destruct (tidyRules nf nb k rules) as [rules'|e] eqn:Hrules; cbn [bindR].
  - rewrite (proj1 Hok) by (by eexists).
    destruct (withHead_head
                (fun ch => ch ++ [styleElement
                                    (setStyleInnerHTML
                                       (cssCleaner_minify (Cssom.toString rules')))])%list
                _ _ Hhead3) as (children4 & -> & _).
    by eexists.
  - destruct (forallb isStyleRule rules).
    + destruct (proj2 Hok eq_refl) as [? ?]. done.
    + by rewrite (tidyRules_error _ _ _ _ _ Hrules).
Qed.

(** The style sheet [tidyCss] hands to [CSSOM.parse]. *)
Lemma tidyCssDom_outcome (dom : Document) (options : Options) (head : list Node) :
  let overridden :=
    isSome (whenTruthy (fonts options))
    || isSome (whenTruthy (backgroundColor options)) in
  let text :=
    if (length (querySelectorAllStyle dom) =? 0) && overridden
    then "div {}" else combine (querySelectorAllStyle dom) in
  headOf (htmlChildren dom) = Some head ->
  match CSSOM_parse text with
  | Err e => tidyCssDom dom options = Err e
  | Ok rules =>
      if forallb isStyleRule rules
      then exists out, tidyCssDom dom options = Ok out
      else tidyCssDom dom options = Err TypeError
  end.
Proof.
  intros overridden text Hhead. subst overridden text.
  unfold tidyCssDom.
  destruct ((length (querySelectorAllStyle dom) =? 0)
            && (isSome (whenTruthy (fonts options))
                || isSome (whenTruthy (backgroundColor options)))) eqn:Hdefault.
  - apply andb_true_iff in Hdefault as [Hnone _].
    apply Nat.eqb_eq, length_zero_iff_nil in Hnone.
    destruct (withHead_head
                (fun ch => ch ++ [styleElement (setStyleInnerHTML "div {}")])%list
                _ _ Hhead) as (children1 & Hchildren1 & Hhead1).
    rewrite Hchildren1. cbn [bindR].
    rewrite (withHead_styles _ _ _ _ Hhead Hnone Hchildren1).
    rewrite flat_map_app, (headOf_without_styles _ _ Hhead Hnone).
    change (combine _) with "div {}".
    exact (tidyCssDom_tail dom _ _ _ "div {}" children1 _ Hhead1).
  - cbn [bindR]. fold (querySelectorAllStyle dom).
    exact (tidyCssDom_tail dom _ _ _ _ (htmlChildren dom) _ Hhead).
Qed.

(** X16.  [tidyCss] throws exactly when [CSSOM.parse] throws on the gathered
    style sheet (the text of the style elements, or [div {}] when there is
    none and an override is configured), or when a parsed rule is an
    at-rule; it throws the parser's error in the first case and a
    [TypeError] in the second. *)
Theorem tidyCss_fails_exactly_on_bad_css
    (html : string) (options : Options) (head : list Node) :
  let dom := JSDOM_parse html in
  let overridden :=
    isSome (whenTruthy (fonts options))
    || isSome (whenTruthy (backgroundColor options)) in
  let text :=
    if (length (querySelectorAllStyle dom) =? 0) && overridden
    then "div {}" else combine (querySelectorAllStyle dom) in
  headOf (htmlChildren dom) = Some head ->
  match CSSOM_parse text with
  | Err e => tidyCss html options = Err e
  | Ok rules =>
      if forallb isStyleRule rules
      then exists out, tidyCss html options = Ok out
      else tidyCss html options = Err TypeError
  end.
Proof.
  intros dom overridden text Hhead.
  pose proof (tidyCssDom_outcome dom options head Hhead) as Hdom.
  cbv zeta in Hdom. fold overridden text in Hdom.
  unfold tidyCss. fold dom.
  destruct (CSSOM_parse text) as [rules|e]; [|by rewrite Hdom].
  destruct (forallb isStyleRule rules).
  - destruct Hdom as [out ->]. by eexists.
  - by rewrite Hdom.
Qed.

End TransformOutcome.

Section TransformOutcomeExamples.
Import Cssom Dom TidyCss Rules.

Lemma tidyCss_fails_exactly_on_bad_css_witness :
  @tidyCss atRuleLibraries
    "<html><head><style>@media print{p{color:red}}</style></head><body></body></html>"
    noOptions = Err TypeError /\
  @tidyCss atRuleLibraries
    "<html><head><style>p{color:red}}</style></head><body></body></html>"
    noOptions = Err CssParseError /\
  exists out,
    @tidyCss atRuleLibraries
      "<html><head></head><body></body></html>" (mkOptions (Some "white") None)
    = Ok out.
Proof.
  split; [|split].
  - exact (@tidyCss_fails_exactly_on_bad_css atRuleLibraries
             "<html><head><style>@media print{p{color:red}}</style></head><body></body></html>"
             noOptions [styleElement [Text "@media print{p{color:red}}"]]
             ltac:(vm_compute; reflexivity)).
  - exact (@tidyCss_fails_exactly_on_bad_css atRuleLibraries
             "<html><head><style>p{color:red}}</style></head><body></body></html>"
             noOptions [styleElement [Text "p{color:red}}"]]
             ltac:(vm_compute; reflexivity)).
  - exact (@tidyCss_fails_exactly_on_bad_css atRuleLibraries
             "<html><head></head><body></body></html>" (mkOptions (Some "white") None)
             [] ltac:(vm_compute; reflexivity)).
Defined.

End TransformOutcomeExamples.

Section DefaultStyle.
Import Cssom Dom TidyCss Rules.

Lemma whenTruthy_truthy (o : option string) (s : string) :
  whenTruthy o = Some s -> Js.truthy s = true.
Proof.
  destruct o as [t|]; [|done]. cbn [whenTruthy].
  destruct (Js.truthy t) eqn:Ht; [|done]. by intros [= <-].
Qed.

(** The text of a rule from what its declaration holds. *)
Lemma ruleText_of (sel : string) (st : CSSStyleDeclaration) (ns : list string) :
  Js.truthy sel = true -> names st = ns ->
  Cssom.toString [CSSStyleRule sel st] =
    sel +:+ " {" +:+ Js.join " " (map (declText st) ns) +:+ "}" +:+ nl.
Proof.
  intros Hsel <-. cbn [Cssom.toString ruleText]. rewrite Hsel. unfold cssText.
  by rewrite !append_assoc.
Qed.

Lemma declText_of (st : CSSStyleDeclaration) (name value : string) :
  getPropertyValue st name = value ->
  getPropertyPriority st name = EmptyString ->
  declText st name = name +:+ ": " +:+ value +:+ ";".
Proof. intros Hvalue Hpriority. unfold declText. by rewrite Hvalue, Hpriority. Qed.

Lemma tidyRules_default (nf nb : option string) :
  (forall f, nf = Some f -> Js.truthy f = true) ->
  exists rules',
    tidyRules nf nb 1 [CSSStyleRule "div" emptyStyle] = Ok rules' /\
    Cssom.toString rules' = defaultRuleText nf nb.
Proof.
  intros Hnf. eexists. split; [reflexivity|].
  unfold defaultRuleText.
  destruct nf as [f|].
  - rewrite replaceFont_reaches by done.
    rewrite (quoteFonts_declared _ f) by (by rewrite ?get_setProperty; auto).
    generalize (parsedFonts f). intros quoted.
    specialize (Hnf f eq_refl). destruct f as [|a f]; [done|]. clear Hnf.
    destruct nb as [c|].
    + rewrite (ruleText_of _ _ [fontFamily; "page-break-inside"; "background-color"])
        by (vm_compute; reflexivity).
      cbn [map Js.join].
      rewrite (declText_of _ fontFamily quoted) by (vm_compute; reflexivity).
      rewrite (declText_of _ "page-break-inside" "avoid") by (vm_compute; reflexivity).
      rewrite (declText_of _ "background-color" c) by (vm_compute; reflexivity).
      repeat (rewrite append_assoc || cbn [String.append]). reflexivity.
    + rewrite (ruleText_of _ _ [fontFamily; "page-break-inside"])
        by (vm_compute; reflexivity).
      cbn [map Js.join].
      rewrite (declText_of _ fontFamily quoted) by (vm_compute; reflexivity).
      rewrite (declText_of _ "page-break-inside" "avoid") by (vm_compute; reflexivity).
      repeat (rewrite append_assoc || cbn [String.append]). reflexivity.
  - destruct nb as [c|].
    + rewrite (ruleText_of _ _ ["page-break-inside"; "background-color"])
        by (vm_compute; reflexivity).
      cbn [map Js.join].
      rewrite (declText_of _ "page-break-inside" "avoid") by (vm_compute; reflexivity).
      rewrite (declText_of _ "background-color" c) by (vm_compute; reflexivity).
      repeat (rewrite append_assoc || cbn [String.append]). reflexivity.
    + vm_compute. reflexivity.
Qed.

End DefaultStyle.

Section DefaultStyleTransform.
Import Cssom Dom TidyCss Rules.
Context `{Libraries}.

(** X17.  A document without style elements, with an override configured: a
    style element holding [div {}] is made, so the result has one style
    element, and its content is the minified text of a single [div] rule
    that holds, in this order, the font override (quoted) if there is one,
    [page-break-inside: avoid], and the background colour if there is one.
    *)
Theorem default_style_carries_overrides
    (html : string) (options : Options) (head : list Node) :
  let dom := JSDOM_parse html in
  let newFonts := whenTruthy (fonts options) in
  let newBackgroundColor := whenTruthy (backgroundColor options) in
  querySelectorAllStyle dom = [] ->
  isSome newFonts || isSome newBackgroundColor = true ->
  headOf (htmlChildren dom) = Some head ->
  flat_map styleElements
    (parseHeadFragment (collapseBlankLines (innerHTML "head" head))) = [] ->
  CSSOM_parse "div {}" = Ok [CSSStyleRule "div" emptyStyle] ->
  exists out,
    tidyCss html options = Ok (serialize out) /\
    querySelectorAllStyle out =
      [styleElement
         (setStyleInnerHTML
            (cssCleaner_minify (defaultRuleText newFonts newBackgroundColor)))].
Proof.
  intros dom newFonts newBackgroundColor Hnone Hoverride Hhead Hreparsed Hparse.
  set (reparse := fun ch : list Node =>
         parseHeadFragment (collapseBlankLines (innerHTML "head" ch))).
  set (merged := styleElement _).
  destruct (withHead_headOf (fun ch => reparse ch ++ [merged])%list _ _ Hhead)
    as [children Hchildren].
  exists (mkDocument (doctype dom) (htmlAttrs dom) children).
  assert (tidyCssDom dom options
          = Ok (mkDocument (doctype dom) (htmlAttrs dom) children)) as Hout.
  { unfold tidyCssDom. fold newFonts newBackgroundColor.
    rewrite Hnone, Hoverride. cbn [length Nat.eqb andb].
    destruct (withHead_head
                (fun ch => ch ++ [styleElement (setStyleInnerHTML "div {}")])%list
                _ _ Hhead) as (children1 & Hchildren1 & Hhead1).
    rewrite Hchildren1. cbn [bindR].
    rewrite (withHead_styles _ _ _ _ Hhead Hnone Hchildren1).
    rewrite flat_map_app, (headOf_without_styles _ _ Hhead Hnone).
    change (combine _) with "div {}".
    rewrite (removeStyles_appended _ _ _ Hnone Hchildren1).
    rewrite Hparse. cbn [bindR].
    rewrite <- (withHead_compose reparse (fun ch => ch ++ [merged])%list) in Hchildren.
    fold reparse.
    destruct (withHead reparse (htmlChildren dom)) as [children3|]; [|done].
    cbn [bindR] in *.
    destruct (tidyRules_default newFonts newBackgroundColor) as (rules' & Hrules & Htext).
    { intros f. apply whenTruthy_truthy. }
    cbn [flat_map styleElements styleElement String.eqb Ascii.eqb app length] in *.
    cbn [Bool.eqb] in *.
    rewrite tidied_text_nodes_hold_no_style. cbn [app length].
    rewrite Hrules. cbn [bindR]. rewrite Htext. fold merged.
    by rewrite Hchildren. }
  split.
  - unfold tidyCss. fold dom. by rewrite Hout.
  - unfold querySelectorAllStyle. cbn [htmlChildren].
    fold (querySelectorAllStyle dom) in Hnone.
    rewrite (withHead_styles _ _ _ _ Hhead Hnone Hchildren).
    cbv beta. subst reparse. cbv beta. rewrite flat_map_app, Hreparsed.
    subst merged. cbn. by rewrite tidied_text_nodes_hold_no_style.
Qed.

End DefaultStyleTransform.

Section DefaultStyleExample.
Import Cssom Dom TidyCss Rules.

Lemma default_style_carries_overrides_witness :
  exists out,
    tidyCss "<html><head><title>t</title></head><body><p>x</p></body></html>"
      (mkOptions (Some "white") (Some "Arial, Sans Serif")) = Ok (serialize out) /\
    querySelectorAllStyle out =
      [styleElement
         [Text ("div{font-family:Arial," +:+ dq +:+ "Sans Serif" +:+ dq
                +:+ ";page-break-inside:avoid;background-color:white}")]].
Proof.
  exact (@default_style_carries_overrides referenceLibraries
           "<html><head><title>t</title></head><body><p>x</p></body></html>"
           (mkOptions (Some "white") (Some "Arial, Sans Serif"))
           [Element "title" [] [Text "t"]]
           ltac:(vm_compute; reflexivity) eq_refl
           ltac:(vm_compute; reflexivity) ltac:(vm_compute; reflexivity)
           ltac:(vm_compute; reflexivity)).
Defined.

End DefaultStyleExample.

Section TransformShape.
Import Cssom Dom TidyCss Rules.
Context `{Libraries}.

(** The document [tidyCss] serialises: the parsed one without its style
    elements, its head parsed again from its text with the blank lines
    dropped, and one style element appended to the head. *)
Lemma tidyCssDom_shape (dom out : Document) (options : Options) :
  tidyCssDom dom options = Ok out ->
  exists css,
    withHead
      (fun ch => parseHeadFragment (collapseBlankLines (innerHTML "head" ch))
                 ++ [styleElement (setStyleInnerHTML (cssCleaner_minify css))])%list
      (flat_map removeStyles (htmlChildren dom)) = Ok (htmlChildren out) /\
    doctype out = doctype dom /\ htmlAttrs out = htmlAttrs dom.
Proof.
  unfold tidyCssDom.
  set (reparse := fun ch : list Node =>
         parseHeadFragment (collapseBlankLines (innerHTML "head" ch))).
  set (nf := whenTruthy (fonts options)).
  set (nb := whenTruthy (backgroundColor options)).
  assert (forall children1 k text,
            flat_map removeStyles children1 = flat_map removeStyles (htmlChildren dom) ->
            bindR (withHead reparse (flat_map removeStyles children1))
              (fun children3 =>
            bindR (CSSOM_parse text) (fun cssRules =>
            bindR (tidyRules nf nb k cssRules) (fun cssRules' =>
            bindR (withHead
                     (fun ch => ch ++ [styleElement
                                         (setStyleInnerHTML
                                            (cssCleaner_minify
                                               (Cssom.toString cssRules')))])%list
                     children3)
              (fun children4 =>
                 Ok (mkDocument (doctype dom) (htmlAttrs dom) children4)))))
            = Ok out ->
            exists css,
              withHead
                (fun ch => reparse ch
                           ++ [styleElement (setStyleInnerHTML (cssCleaner_minify css))])%list
                (flat_map removeStyles (htmlChildren dom)) = Ok (htmlChildren out) /\
              doctype out = doctype dom /\ htmlAttrs out = htmlAttrs dom) as Htail.
  { intros children1 k text ->.
    destruct (withHead reparse _) as [children3|] eqn:Hchildren3; [|done].
    cbn [bindR].
    destruct (CSSOM_parse text) as [cssRules|]; [|done]. cbn [bindR].
    destruct (tidyRules nf nb k cssRules) as [cssRules'|]; [|done]. cbn [bindR].
    destruct (withHead _ children3) as [children4|] eqn:Hchildren4; [|done].
    cbn [bindR]. intros [= <-]. exists (Cssom.toString cssRules').
    split; [|done]. cbn [htmlChildren].
    rewrite <- (withHead_compose reparse
                  (fun ch => ch ++ [styleElement
                                      (setStyleInnerHTML
                                         (cssCleaner_minify
                                            (Cssom.toString cssRules')))])%list).
    by rewrite Hchildren3. }
  destruct ((length (querySelectorAllStyle dom) =? 0) && (isSome nf || isSome nb))
    eqn:Hdefault.
  - apply andb_true_iff in Hdefault as [Hnone _].
    apply Nat.eqb_eq, length_zero_iff_nil in Hnone.
    destruct (withHead _ (htmlChildren dom)) as [children1|] eqn:Hchildren1; [|done].
    cbn [bindR]. apply Htail.
    rewrite (removeStyles_appended _ _ _ Hnone Hchildren1).
    by rewrite (removeStyles_list_without_styles _ Hnone).
  - cbn [bindR]. by apply Htail.
Qed.

(** X18.  Outside the head, [tidyCss] takes the style elements away and
    leaves everything else alone: the doctype, the attributes of [html] and
    the nodes beside the head are those of the input, style elements apart;
    the head is the old one without its style elements, parsed again from
    its text, with one style element added at its end. *)
Theorem tidyCss_rewrites_head_only (html : string) (options : Options)
    (out : Document) :
  let dom := JSDOM_parse html in
  tidyCssDom dom options = Ok out ->
  tidyCss html options = Ok (serialize out) /\
  doctype out = doctype dom /\
  htmlAttrs out = htmlAttrs dom /\
  exists css,
    withHead
      (fun ch => parseHeadFragment (collapseBlankLines (innerHTML "head" ch))
                 ++ [styleElement (setStyleInnerHTML (cssCleaner_minify css))])%list
      (flat_map removeStyles (htmlChildren dom)) = Ok (htmlChildren out).
Proof.
  intros dom Hout.
  destruct (tidyCssDom_shape dom out options Hout) as (css & Hchildren & Hdoctype & Hattrs).
  split; [|split; [done|split; [done|by exists css]]].
  unfold tidyCss. fold dom. by rewrite Hout.
Qed.

(** X19.  However many style elements a document has, and wherever they
    stand, the result has exactly one, the last child of the head (provided
    the head, parsed again from its text without them, holds none). *)
Theorem tidyCss_leaves_one_style_element (html : string) (options : Options)
    (out : Document) (head : list Node) :
  let dom := JSDOM_parse html in
  tidyCssDom dom options = Ok out ->
  headOf (flat_map removeStyles (htmlChildren dom)) = Some head ->
  flat_map styleElements
    (parseHeadFragment (collapseBlankLines (innerHTML "head" head))) = [] ->
  exists content,
    querySelectorAllStyle out = [styleElement content] /\
    headOf (htmlChildren out) =
      Some (parseHeadFragment (collapseBlankLines (innerHTML "head" head))
            ++ [styleElement content])%list.
Proof.
  intros dom Hout Hhead Hreparsed.
  destruct (tidyCssDom_shape dom out options Hout) as (css & Hchildren & _).
  exists (setStyleInnerHTML (cssCleaner_minify css)). split.
  - unfold querySelectorAllStyle.
    rewrite (withHead_styles _ _ _ _ Hhead (styleElements_removeStyles_list _) Hchildren).
    rewrite flat_map_app, Hreparsed. cbn.
    by rewrite tidied_text_nodes_hold_no_style.
  - destruct (withHead_head
                (fun ch => parseHeadFragment (collapseBlankLines (innerHTML "head" ch))
                           ++ [styleElement (setStyleInnerHTML (cssCleaner_minify css))])%list
                _ _ Hhead) as (children & Hchildren' & Hhead').
    rewrite Hchildren in Hchildren'. by injection Hchildren' as <-.
Qed.

End TransformShape.

Section TransformShapeExamples.
Import Cssom Dom TidyCss Rules Samples.

Lemma tidyCss_rewrites_head_only_witness :
  tidyCss threeBlocks noOptions
    = Ok ("<!DOCTYPE html><html lang=" +:+ dq +:+ "en" +:+ dq
          +:+ "><head><title>t</title><style>p{color:red}b{color:blue}i{color:green}</style></head><body><p>x</p></body></html>").
Proof.
  exact (proj1 (@tidyCss_rewrites_head_only referenceLibraries threeBlocks noOptions
                  threeBlocksTidied ltac:(vm_compute; reflexivity))).
Defined.

Lemma tidyCss_leaves_one_style_element_witness :
  exists content,
    querySelectorAllStyle threeBlocksTidied = [styleElement content] /\
    headOf (htmlChildren threeBlocksTidied) =
      Some ([Element "title" [] [Text "t"]] ++ [styleElement content])%list.
Proof.
  exact (@tidyCss_leaves_one_style_element referenceLibraries threeBlocks noOptions
           threeBlocksTidied [Element "title" [] [Text "t"]]
           ltac:(vm_compute; reflexivity)
           ltac:(vm_compute; reflexivity) ltac:(vm_compute; reflexivity)).
Defined.

End TransformShapeExamples.

(** ** More on the workspace *)

Section GlobFacts.
Import Workspace Paths.






End GlobFacts.

Section CleanupFrame.
Import Workspace Paths.




(** X22.  Every unlink is started before any is awaited, so a file that
    vanished between the scan and the unlinks makes the hook reject but does
    not keep the other files: whatever the hook found is gone afterwards. *)
Theorem cleanup_completes_despite_rejection
    (other : Files -> Files) (reply : string) (s : State) (loc : DocLocation)
    (p : string) :
  docLocationOf (request s) = Some loc ->
  globMatch (joinSafe (directory loc) (id loc) +:+ "*") p = true ->
  is_Some (files s !! p) ->
  files (fst (onSendAmid other reply s)) !! p = None.
Proof.
  intros Hloc Hmatch Hthere.
  rewrite (onSendAmid_unfold other reply s loc Hloc). cbv zeta.
  set (found := List.filter _ _).
  set (scanned := mkState _ _ _).
  pose proof (promiseAll_unlink_files found scanned p) as Hfiles.
  rewrite bool_decide_eq_true_2 in Hfiles by (by apply elem_of_globbed).
  by destruct (promiseAll (map unlink found) scanned) as [s' [[]|e]].
Qed.

End CleanupFrame.

Section CleanupFrameExamples.
Import Workspace Paths ReferenceRoute.



Lemma cleanup_completes_despite_rejection_witness :
  snd (onSendAmid (delete "tmp/abc.rtf") "<html></html>" staged)
    = Thrown (SystemError "ENOENT") /\
  files (fst (onSendAmid (delete "tmp/abc.rtf") "<html></html>" staged))
    !! "tmp/abc-1.png" = None.
Proof.
  split; [vm_compute; reflexivity|].
  exact (cleanup_completes_despite_rejection (delete "tmp/abc.rtf") "<html></html>"
           staged (mkDocLocation "tmp" "tmp/abc.rtf" "abc") "tmp/abc-1.png"
           eq_refl eq_refl ltac:(by eexists)).
Defined.

End CleanupFrameExamples.

Section Lifecycle.
Import Workspace Paths Answers.
Context `{Libraries}.
Variable tempDir : string.
Variable fromBuffer : list Byte.byte -> option string.
Variable unrtf_convert : Files -> string -> Files * Outcome string.
Variable fixUtf8 : string -> string.
Variable tidyHtml : string -> string.

(** A request that passes the Accept check and the sniffer: its body is
    staged, the converter runs on the staged file, and the workspace is on
    record whatever comes of it. *)
Lemma respond_staged (req : Inbound) (uuid : string) (s : State)
    (cr : ConversionResults) (fs' : Files) (converted : Outcome string) :
  let tempFile := joinSafe tempDir (uuid +:+ ".rtf") in
  acceptsHtml req = true ->
  fromBuffer (payload req) = Some rtfMime ->
  conversionResults (request s) = Some cr ->
  unrtf_convert (<[tempFile := payload req]> (files s)) tempFile = (fs', converted) ->
  exists r',
    respond tempDir fromBuffer unrtf_convert fixUtf8 tidyHtml req uuid s
      = (mkState fs' r' (log s ++ [Wrote tempFile]), answerOf fixUtf8 tidyHtml (query req) converted) /\
    docLocationOf r' = Some (mkDocLocation tempDir tempFile uuid).
Proof.
  intros tempFile Haccepts Hmime Hcr Hconvert.
  cbv [respond bind getRequest setRequest ret throw contentTypeParser preHandler
       writeFile handler].
  rewrite Haccepts, Hmime, String.eqb_refl.
  cbn [request conversionResults files log reqBody]. rewrite Hcr.
  cbn [request conversionResults files log reqBody].
  fold tempFile. rewrite Hconvert.
  destruct converted as [html|err]; cbn [answerOf].
  - cbn [request conversionResults body docLocationOf docLocation].
    destruct (TidyCss.tidyCss _ _); by eexists.
  - destruct (Js.includes _ _); by eexists.
Qed.

(** The life of such a request, from the first hook to the response. *)
Lemma handleRequest_staged (req : Inbound) (uuid : string) (s : State)
    (fs' : Files) (converted : Outcome string) :
  let tempFile := joinSafe tempDir (uuid +:+ ".rtf") in
  acceptsHtml req = true ->
  fromBuffer (payload req) = Some rtfMime ->
  unrtf_convert (<[tempFile := payload req]> (files s)) tempFile = (fs', converted) ->
  exists removed,
    log (fst (handleRequest tempDir fromBuffer unrtf_convert fixUtf8 tidyHtml
                req uuid s))
      = (log s ++ [Wrote tempFile] ++ map Unlinked removed
           ++ [match answerOf fixUtf8 tidyHtml (query req) converted with
               | Done html => Sent 200 html
               | Thrown e => Sent (statusOf e) (errorPayload e)
               end])%list /\
    NoDup removed.
Proof.
  intros tempFile Haccepts Hmime Hconvert.
  unfold handleRequest. cbv [bind catch onRequest getRequest setRequest].
  set (s1 := mkState _ _ _).
  destruct (respond_staged req uuid s1 (mkConversionResults None None) fs' converted
              Haccepts Hmime eq_refl Hconvert) as (r' & -> & Hloc).
  fold tempFile.
  set (s2 := mkState fs' r' _).
  set (answer := match answerOf fixUtf8 tidyHtml (query req) converted with
                 | Done html => (200, html)
                 | Thrown e => (statusOf e, errorPayload e)
                 end).
  assert (match answerOf fixUtf8 tidyHtml (query req) converted with
          | Done html => Sent 200 html
          | Thrown e => Sent (statusOf e) (errorPayload e)
          end = Sent (fst answer) (snd answer)) as ->.
  { unfold answer. by destruct (answerOf _ _). }
  destruct answer as [status reply]. cbn [fst snd].
  destruct (onSend_cleans reply s2 _ Hloc) as [Hdone _].
  destruct (onSend_log reply s2) as (removed & Hremoved & Hnodup).
  destruct (onSend reply s2) as [s3 sent]. cbn [fst snd] in *. subst sent.
  exists removed. split; [|done].
  cbn. rewrite Hremoved. unfold s2. cbn [log]. by rewrite <- !app_assoc.
Qed.

(** A request that is turned away before [preHandler] changes nothing. *)
Lemma handleRequest_refused (req : Inbound) (uuid : string) (s : State) :
  acceptsHtml req = false \/ fromBuffer (payload req) <> Some rtfMime ->
  let s' := fst (handleRequest tempDir fromBuffer unrtf_convert fixUtf8 tidyHtml
                   req uuid s) in
  files s' = files s /\
  docLocationOf (request s') = None /\
  log s' = (log s ++ [if acceptsHtml req
                      then Sent 415 "Unsupported Media Type"
                      else Sent 406 "Not Acceptable"])%list.
Proof.
  intros Hrefused.
  cbv [handleRequest respond bind catch onRequest getRequest setRequest ret throw
       contentTypeParser].
  destruct (acceptsHtml req); [|by cbn].
  destruct Hrefused as [|Hmime]; [done|].
  destruct (fromBuffer (payload req)) as [mime|]; [|by cbn].
  destruct (String.eqb mime rtfMime) eqn:Heq; [|by cbn].
  apply String.eqb_eq in Heq as ->. done.
Qed.

(** X23.  The Accept header is checked before the body is looked at: a
    request that does not accept [text/html] is answered 406 whatever its
    body, even a well-formed RTF document, and nothing is staged for it. *)
Theorem unacceptable_request_refused_before_sniffing
    (req : Inbound) (uuid : string) (s : State) :
  acceptsHtml req = false ->
  let s' := fst (handleRequest tempDir fromBuffer unrtf_convert fixUtf8 tidyHtml
                   req uuid s) in
  files s' = files s /\
  docLocationOf (request s') = None /\
  log s' = (log s ++ [Sent 406 "Not Acceptable"])%list.
Proof.
  intros Haccepts.
  pose proof (handleRequest_refused req uuid s (or_introl Haccepts)) as Hrefused.
  cbv zeta in *. by rewrite Haccepts in Hrefused.
Qed.

(** X24.  A page that the converter gives is repaired by [fixUtf8], tidied
    by [tidyHtml] and then by [tidyCss] with the fonts and the background
    colour of the query, and sent with status 200; if [tidyCss] throws, the
    response is a 500. Either way one file was staged, [tempDir/uuid.rtf],
    and the files unlinked are unlinked before the response. *)
Theorem converted_page_is_tidied_then_sent
    (req : Inbound) (uuid : string) (s : State) (fs' : Files) (html : string) :
  let tempFile := joinSafe tempDir (uuid +:+ ".rtf") in
  acceptsHtml req = true ->
  fromBuffer (payload req) = Some rtfMime ->
  unrtf_convert (<[tempFile := payload req]> (files s)) tempFile = (fs', Done html) ->
  exists removed,
    log (fst (handleRequest tempDir fromBuffer unrtf_convert fixUtf8 tidyHtml
                req uuid s))
      = (log s ++ [Wrote tempFile] ++ map Unlinked removed
           ++ [match TidyCss.tidyCss (tidyHtml (fixUtf8 html))
                       (TidyCss.mkOptions (backgroundColor (query req))
                                          (fonts (query req))) with
               | Ok out => Sent 200 out
               | Err _ => Sent 500 "Internal Server Error"
               end])%list.
Proof.
  intros tempFile Haccepts Hmime Hconvert.
  destruct (handleRequest_staged req uuid s fs' (Done html) Haccepts Hmime Hconvert)
    as (removed & Hlog & _).
  exists removed. rewrite Hlog. cbn [answerOf]. fold tempFile.
  by destruct (TidyCss.tidyCss _ _).
Qed.



End Lifecycle.

Section LifecycleExamples.
Import Workspace Paths ReferenceRoute.

Lemma unacceptable_request_refused_before_sniffing_witness :
  let req := mkInbound (rtfSignature ++ [Byte.x31])%list false (mkQuery None None) in
  let s' := fst (handleRequest req "abc" (freshState ∅)) in
  files s' = ∅ /\ docLocationOf (request s') = None /\
  log s' = [Sent 406 "Not Acceptable"].
Proof.
  exact (@unacceptable_request_refused_before_sniffing referenceLibraries "tmp"
           fromBuffer unrtf_convert (fun s => s) (fun s => s)
           (mkInbound (rtfSignature ++ [Byte.x31])%list false (mkQuery None None))
           "abc" (freshState ∅) eq_refl).
Defined.

Lemma converted_page_is_tidied_then_sent_witness :
  let req := mkInbound (rtfSignature ++ [Byte.x31])%list true
                       (mkQuery (Some "Arial") None) in
  exists removed,
    log (fst (handleRequest req "abc" (freshState ∅)))
      = ([Wrote "tmp/abc.rtf"] ++ map Unlinked removed
         ++ [Sent 200 "<html><head><style>div{font-family:Arial;page-break-inside:avoid}</style></head><body><p>Ask not what your country can do for you</p></body></html>"])%list.
Proof.
  exact (@converted_page_is_tidied_then_sent referenceLibraries "tmp"
           fromBuffer unrtf_convert (fun s => s) (fun s => s)
           (mkInbound (rtfSignature ++ [Byte.x31])%list true
                      (mkQuery (Some "Arial") None))
           "abc" (freshState ∅) _ _ eq_refl eq_refl eq_refl).
Defined.



End LifecycleExamples.
